(** * Command handlers and dict persistence of python-telegram-bot

    A shallow embedding of [telegram/ext/commandhandler.py] and
    [telegram/ext/dictpersistence.py], and the properties of the two
    modules that the specification states, followed by further
    properties that the code of the two modules has.

    Conventions of the embedding.
    - A Python [str] is a Rocq [string]; a character stands for the code
      point of the same number, so the strings of the model are the
      Python strings over code points below 256.  On these [str.lower],
      [str.isspace] and the regular-expression class [\d] are given
      exactly by [lower_char], [isspace] and [isdigit] below.
    - A Python exception is a value of [exn]; a function that can raise
      returns a [result].  [Unmodelled] is no exception of Python: it marks
      a computation that leaves the values of the model (a number that is
      not an integer, a conversation key that is not a tuple of integers,
      a call of [float] on a number or a string).  The model does not
      follow the code beyond that point, where the code goes on and may
      return or raise.
    - Dictionaries of the store whose keys are typed in the source
      ([int] ids, handler names, tuples of [int]) are finite maps; a value
      of unknown type ([object], [Dict]) is a [pyval].  A finite map keeps
      no order of insertion: where the code writes such a dictionary, the
      model writes the same items in the order of the map. *)

From Stdlib Require Import ZArith String Ascii List Bool Lia DecimalString.
From Stdlib Require DecimalZ DecimalPos.
From stdpp Require Import base option list strings gmap fin_maps.
Import ListNotations.

Set Warnings "-register-all".
Local Open Scope string_scope.
Local Open Scope Z_scope.

(** ** Exceptions *)

Inductive exn : Set :=
| ValueError
| TypeError
| AttributeError
| IndexError
| KeyError
| Unmodelled.

Inductive result (A : Type) : Type :=
| Ok (a : A)
| Raise (e : exn).
Arguments Ok {A} a.
Arguments Raise {A} e.

#[global] Instance result_ret : MRet result := fun _ a => Ok a.
#[global] Instance result_bind : MBind result := fun _ _ f r =>
  match r with
  | Ok a => f a
  | Raise e => Raise e
  end.

Definition raises {A} (r : result A) : bool :=
  match r with
  | Ok _ => false
  | Raise _ => true
  end.

(** [l[i]] for a non-negative literal index. *)
Definition getitem {A} (l : list A) (i : nat) : result A :=
  match nth_error l i with
  | Some x => Ok x
  | None => Raise IndexError
  end.

(** ** Python values

    The values of the model: [None], booleans, integers, strings, lists,
    tuples and dictionaries (their items in the order of insertion).
    Floating-point numbers and the instances of other classes are left
    out. *)

Inductive pyval : Type :=
| PNone
| PBool (b : bool)
| PInt (z : Z)
| PStr (s : string)
| PList (l : list pyval)
| PTuple (l : list pyval)
| PDict (d : list (pyval * pyval)).

(** Truth value of an object, as [if x:] tests it. *)
Definition truthy (v : pyval) : bool :=
  match v with
  | PNone => false
  | PBool b => b
  | PInt z => negb (z =? 0)
  | PStr s => negb (String.eqb s "")
  | PList l | PTuple l => negb (Nat.eqb (length l) 0)
  | PDict d => negb (Nat.eqb (length d) 0)
  end.

(** [==] on values.  Numbers compare by value ([True == 1]), sequences
    element by element, dictionaries by their key sets and the values
    under each key, whatever the order of insertion. *)
Fixpoint py_eqb (a b : pyval) {struct a} : bool :=
  let fix seq_eqb (l1 l2 : list pyval) {struct l1} : bool :=
    match l1, l2 with
    | [], [] => true
    | x :: l1', y :: l2' => py_eqb x y && seq_eqb l1' l2'
    | _, _ => false
    end in
  let fix has_item (k v : pyval) (d2 : list (pyval * pyval)) {struct d2} : bool :=
    match d2 with
    | [] => false
    | (k2, v2) :: d2' => if py_eqb k k2 then py_eqb v v2 else has_item k v d2'
    end in
  let fix items_in (d1 d2 : list (pyval * pyval)) {struct d1} : bool :=
    match d1 with
    | [] => true
    | (k, v) :: d1' => has_item k v d2 && items_in d1' d2
    end in
  match a, b with
  | PNone, PNone => true
  | PBool x, PBool y => Bool.eqb x y
  | PBool x, PInt y => Z.b2z x =? y
  | PInt x, PBool y => x =? Z.b2z y
  | PInt x, PInt y => x =? y
  | PStr x, PStr y => String.eqb x y
  | PList x, PList y => seq_eqb x y
  | PTuple x, PTuple y => seq_eqb x y
  | PDict x, PDict y => Nat.eqb (length x) (length y) && items_in x y
  | _, _ => false
  end.

(** ** Python strings *)

Definition code (c : ascii) : nat := nat_of_ascii c.

Definition in_range (lo hi n : nat) : bool := Nat.leb lo n && Nat.leb n hi.

(** [str.lower] on one character: A-Z, and the capital letters of the
    Latin-1 block (U+00C0 to U+00DE without the multiplication sign). *)
Definition lower_char (c : ascii) : ascii :=
  let n := code c in
  if in_range 65 90 n || (in_range 192 222 n && negb (Nat.eqb n 215))
  then ascii_of_nat (n + 32)
  else c.

Fixpoint lower (s : string) : string :=
  match s with
  | EmptyString => EmptyString
  | String c s' => String (lower_char c) (lower s')
  end.

(** [str.isspace] on one character: TAB to CR, FS to US, space, NEL and
    the no-break space. *)
Definition isspace (c : ascii) : bool :=
  let n := code c in
  in_range 9 13 n || in_range 28 32 n || Nat.eqb n 133 || Nat.eqb n 160.

(** [\d] of module [re] on a [str] pattern. *)
Definition isdigit (c : ascii) : bool := in_range 48 57 (code c).

(** [s.split()]: the maximal runs of characters that are not white
    space.  [tok] holds the run being read. *)
Fixpoint split_from (tok : string) (s : string) : list string :=
  match s with
  | EmptyString => if String.eqb tok "" then [] else [tok]
  | String c s' =>
      if isspace c
      then (if String.eqb tok "" then split_from "" s' else tok :: split_from "" s')
      else split_from (tok ++ String c "") s'
  end.

Definition split (s : string) : list string := split_from "" s.

(** [s.split(sep)] for a separator of one character. *)
Fixpoint split_on_from (sep : ascii) (tok : string) (s : string) : list string :=
  match s with
  | EmptyString => [tok]
  | String c s' =>
      if Ascii.eqb c sep
      then tok :: split_on_from sep "" s'
      else split_on_from sep (tok ++ String c "") s'
  end.

Definition split_on (sep : ascii) (s : string) : list string := split_on_from sep "" s.

Fixpoint str_take (n : nat) (s : string) : string :=
  match n, s with
  | S n', String c s' => String c (str_take n' s')
  | _, _ => EmptyString
  end.

Fixpoint str_drop (n : nat) (s : string) : string :=
  match n, s with
  | S n', String _ s' => str_drop n' s'
  | _, _ => s
  end.

(** An index of a slice, brought into [0 .. len]: a negative index counts
    from the end. *)
Definition clamp_index (len i : Z) : Z :=
  let j := if i <? 0 then i + len else i in
  Z.max 0 (Z.min len j).

(** [s[lo:hi]]. *)
Definition slice (s : string) (lo hi : Z) : string :=
  let len := Z.of_nat (String.length s) in
  let a := clamp_index len lo in
  let b := clamp_index len hi in
  str_take (Z.to_nat (b - a)) (str_drop (Z.to_nat a) s).

(** [if s:] on an attribute that holds [None] or a string: the string when
    it is not empty. *)
Definition nonempty (c : option string) : option string :=
  match c with
  | Some s => if String.eqb s "" then None else Some s
  | None => None
  end.

(** [x in l] for a list of strings. *)
Definition str_in (x : string) (l : list string) : bool := existsb (String.eqb x) l.

(** ** Updates, messages and filters *)

Module MessageEntity.
Record t := {
  type : string;
  offset : Z;
  length : Z
}.

Definition BOT_COMMAND : string := "bot_command".
End MessageEntity.

Record Bot := { username : string }.

Record Message := {
  text : option string;
  entities : list MessageEntity.t;
  bot : option Bot
}.

(** Modelled from the spec: the class [Update] is not part of the sources at
    hand.  An update carries at most one message, which arrived as an
    ordinary message, an edited message, a channel post or an edited
    channel post; [effective_message] is the message it carries. *)
Record Update := {
  message : option Message;
  edited_message : option Message;
  channel_post : option Message;
  edited_channel_post : option Message
}.

Definition effective_message (u : Update) : option Message :=
  match message u, edited_message u, channel_post u with
  | Some m, _, _ => Some m
  | None, Some m, _ => Some m
  | None, None, Some m => Some m
  | None, None, None => edited_channel_post u
  end.

(** The argument of [check_update] is any object. *)
Inductive object :=
| AnUpdate (u : Update)
| NotAnUpdate.

(** A filter is called on an update and returns [False], [True] or a
    dictionary; the handlers only test the truth value of what it returns. *)
Definition Filter := Update -> pyval.

(** Modelled from the spec: [Filters.update.messages] is not part of the
    sources at hand; it is the baseline predicate that accepts only
    ordinary and edited messages, never channel posts. *)
Definition Filters_update_messages : Filter := fun u =>
  PBool (bool_decide (is_Some (message u)) || bool_decide (is_Some (edited_message u))).

(** Modelled from the spec: the conjunction [f & g] of two filters is not
    part of the sources at hand; it is truthy exactly when both are, and
    then passes on the dictionary of [g] when [g] made one. *)
Definition filter_and (f g : Filter) : Filter := fun u =>
  if truthy (f u)
  then (if truthy (g u)
        then match g u with PDict d => PDict d | _ => PBool true end
        else PBool false)
  else PBool false.

(** What [check_update] returns: [None], [False] or the pair of the
    arguments and the filter's result. *)
Inductive MatchResult :=
| NoMatch
| Rejected
| Matched (args : list string) (filter_result : pyval).

(** [str | List[str]]: the commands and prefixes of a handler are given as
    one string or as a sequence of strings. *)
Inductive SLT :=
| Str (s : string)
| Seq (l : list string).

(** ** CommandHandler *)

Definition is_command_char (c : ascii) : bool :=
  isdigit c || in_range 97 122 (code c) || Nat.eqb (code c) 95.

(** The longest prefix of [s] made of command characters, and what
    follows it. *)
Fixpoint span_command_chars (s : string) : string * string :=
  match s with
  | EmptyString => (EmptyString, EmptyString)
  | String c s' =>
      if is_command_char c
      then let (w, rest) := span_command_chars s' in (String c w, rest)
      else (EmptyString, s)
  end.

Definition newline : string := String "010"%char EmptyString.

(** [re.match(r'^[\da-z_]{1,32}$', comm)]: between 1 and 32 characters of
    the class, after which [$] asks for the end of the string or for a
    line feed that ends the string.  On a [str] pattern [\d] is every
    decimal digit of Unicode; below code point 256, where the strings of
    the model live, these are the digits 0 to 9 and no others. *)
Definition re_match_command (comm : string) : bool :=
  let (w, rest) := span_command_chars comm in
  Nat.leb 1 (String.length w) && Nat.leb (String.length w) 32
  && (String.eqb rest "" || String.eqb rest newline).

(** The loop of [__init__] that checks every command. *)
Fixpoint validate_commands (l : list string) : result unit :=
  match l with
  | [] => Ok tt
  | comm :: l' =>
      if re_match_command comm then validate_commands l' else Raise ValueError
  end.

(** The attributes that [CommandHandler.__init__] assigns.  In a subclass
    [command] may be a property, so that assigning to it and reading it
    run the subclass's setter and getter. *)
Class CommandSlots (Self : Type) := {
  set_command : list string -> Self -> Self;
  get_command : Self -> list string;
  set_filters : Filter -> Self -> Self
}.

(** The body of [CommandHandler.__init__], run on the object [self] under
    construction. *)
Definition CommandHandler_init_body {Self} `{CommandSlots Self}
    (command : SLT) (filters : option Filter) (self : Self) : result Self :=
  let self := match command with
              | Str s => set_command [lower s] self
              | Seq l => set_command (map lower l) self
              end in
  _ ← validate_commands (get_command self);
  match filters with
  | Some f => mret (set_filters (filter_and Filters_update_messages f) self)
  | None => mret (set_filters Filters_update_messages self)
  end.

Record CommandHandler := {
  command : list string;
  filters : Filter
}.

#[global] Instance CommandHandler_slots : CommandSlots CommandHandler := {
  set_command c self := {| command := c; filters := filters self |};
  get_command self := command self;
  set_filters f self := {| command := command self; filters := f |}
}.

Definition CommandHandler_init (command : SLT) (filters : option Filter)
  : result CommandHandler :=
  CommandHandler_init_body command filters
    {| command := []; filters := Filters_update_messages |}.

(** [CommandHandler.check_update], for the command list and the filter of
    the handler. *)
Definition CommandHandler_check_update (self : CommandHandler) (update : object)
  : result MatchResult :=
  match update with
  | AnUpdate u =>
      match effective_message u with
      | Some message =>
          match entities message with
          | [] => mret NoMatch
          | _ :: _ =>
              e0 ← getitem (entities message) 0;
              if String.eqb (MessageEntity.type e0) MessageEntity.BOT_COMMAND
                 && (MessageEntity.offset e0 =? 0)
              then
                match nonempty (text message), bot message with
                | Some txt, Some b =>
                    let raw_command := slice txt 1 (MessageEntity.length e0) in
                    let args := tl (split txt) in
                    let command_parts :=
                      (split_on "@"%char raw_command ++ [username b])%list in
                    p0 ← getitem command_parts 0;
                    p1 ← getitem command_parts 1;
                    if negb (str_in (lower p0) (command self)
                             && String.eqb (lower p1) (lower (username b)))
                    then mret NoMatch
                    else
                      let filter_result := filters self u in
                      if truthy filter_result
                      then mret (Matched args filter_result)
                      else mret Rejected
                | _, _ => mret NoMatch
                end
              else mret NoMatch
          end
      | None => mret NoMatch
      end
  | NotAnUpdate => mret NoMatch
  end.

(** ** PrefixHandler *)

Record PrefixHandler := {
  ph_filters : Filter;
  _prefix : list string;
  _command : list string;
  _commands : list string
}.

Definition _build_commands (self : PrefixHandler) : PrefixHandler :=
  {| ph_filters := ph_filters self;
     _prefix := _prefix self;
     _command := _command self;
     _commands := flat_map (fun x => map (fun y => lower x ++ lower y) (_command self))
                           (_prefix self) |}.

(** The setter of the property [prefix]. *)
Definition set_prefix (prefix : SLT) (self : PrefixHandler) : PrefixHandler :=
  _build_commands
    {| ph_filters := ph_filters self;
       _prefix := match prefix with Str s => [lower s] | Seq l => l end;
       _command := _command self;
       _commands := _commands self |}.

(** The setter of the property [command]. *)
Definition set_command_property (command : SLT) (self : PrefixHandler) : PrefixHandler :=
  _build_commands
    {| ph_filters := ph_filters self;
       _prefix := _prefix self;
       _command := match command with Str s => [lower s] | Seq l => l end;
       _commands := _commands self |}.

#[global] Instance PrefixHandler_slots : CommandSlots PrefixHandler := {
  set_command c self := set_command_property (Seq c) self;
  get_command self := _command self;
  set_filters f self :=
    {| ph_filters := f; _prefix := _prefix self; _command := _command self;
       _commands := _commands self |}
}.

(** [PrefixHandler.__init__]: the three private lists start empty, the
    constructor of the superclass runs for the command ['nocommand'], and
    then the two properties are assigned. *)
Definition PrefixHandler_init (prefix command : SLT) (filters : option Filter)
  : result PrefixHandler :=
  let self := {| ph_filters := Filters_update_messages;
                 _prefix := []; _command := []; _commands := [] |} in
  self ← CommandHandler_init_body (Str "nocommand") filters self;
  let self := set_prefix prefix self in
  let self := set_command_property command self in
  mret (_build_commands self).

Definition PrefixHandler_check_update (self : PrefixHandler) (update : object)
  : result MatchResult :=
  match update with
  | AnUpdate u =>
      match effective_message u with
      | Some message =>
          match nonempty (text message) with
          | Some txt =>
              let text_list := split txt in
              t0 ← getitem text_list 0;
              if negb (str_in (lower t0) (_commands self))
              then mret NoMatch
              else
                let filter_result := ph_filters self u in
                if truthy filter_result
                then mret (Matched (tl text_list) filter_result)
                else mret Rejected
          | None => mret NoMatch
          end
      | None => mret NoMatch
      end
  | NotAnUpdate => mret NoMatch
  end.

(** ** The json module

    [dictpersistence.py] imports [ujson] under the name [json] and falls
    back on the module [json] of the standard library: the store only
    relies on the two functions of the interface. *)

Class JsonModule := {
  dumps : pyval -> result string;
  loads : string -> result pyval
}.

(** [d[k] = v] on the items of a dictionary, in the order of insertion. *)
Fixpoint dict_set (k v : pyval) (d : list (pyval * pyval)) : list (pyval * pyval) :=
  match d with
  | [] => [(k, v)]
  | (k', v') :: d' =>
      if py_eqb k' k then (k', v) :: d' else (k', v') :: dict_set k v d'
  end.

(** An implementation of the interface on the values of the model, which
    writes as the module [json] of the standard library does with its
    default arguments (items separated by a comma and a space, keys of
    basic types turned into strings, every character outside the printable
    ASCII range escaped) and reads the JSON texts whose numbers are
    integers: a number with a fraction or an exponent and the constants
    [NaN], [Infinity] and [-Infinity] are floats, where the reading is
    [Unmodelled]. *)
Module StdJson.

Definition dq : ascii := "034"%char.
Definition bs : ascii := "092"%char.

Definition decimal (z : Z) : string := NilZero.string_of_int (Z.to_int z).

Definition hex_digit (n : nat) : ascii :=
  if Nat.ltb n 10 then ascii_of_nat (48 + n) else ascii_of_nat (87 + n).

Definition escape_char (c : ascii) : string :=
  let n := code c in
  if Nat.eqb n 34 then String bs (String dq "")
  else if Nat.eqb n 92 then String bs (String bs "")
  else if Nat.eqb n 10 then String bs "n"
  else if Nat.eqb n 13 then String bs "r"
  else if Nat.eqb n 9 then String bs "t"
  else if Nat.eqb n 8 then String bs "b"
  else if Nat.eqb n 12 then String bs "f"
  else if in_range 32 126 n then String c ""
  else String bs ("u00" ++ String (hex_digit (Nat.div n 16))
                                  (String (hex_digit (Nat.modulo n 16)) "")).

Fixpoint escape (s : string) : string :=
  match s with
  | EmptyString => EmptyString
  | String c s' => escape_char c ++ escape s'
  end.

Definition quoted (s : string) : string :=
  String dq (escape s ++ String dq "").

Definition dumps_key (k : pyval) : result string :=
  match k with
  | PStr s => Ok s
  | PInt z => Ok (decimal z)
  | PBool true => Ok "true"
  | PBool false => Ok "false"
  | PNone => Ok "null"
  | _ => Raise TypeError
  end.

Fixpoint dumps_value (v : pyval) {struct v} : result string :=
  let fix elements (l : list pyval) {struct l} : result string :=
    match l with
    | [] => Ok ""
    | x :: l' =>
        a ← dumps_value x;
        match l' with
        | [] => Ok a
        | _ :: _ => b ← elements l'; Ok (a ++ ", " ++ b)
        end
    end in
  let fix members (d : list (pyval * pyval)) {struct d} : result string :=
    match d with
    | [] => Ok ""
    | (k, x) :: d' =>
        ks ← dumps_key k;
        a ← dumps_value x;
        match d' with
        | [] => Ok (quoted ks ++ ": " ++ a)
        | _ :: _ => b ← members d'; Ok (quoted ks ++ ": " ++ a ++ ", " ++ b)
        end
    end in
  match v with
  | PNone => Ok "null"
  | PBool true => Ok "true"
  | PBool false => Ok "false"
  | PInt z => Ok (decimal z)
  | PStr s => Ok (quoted s)
  | PList l | PTuple l => a ← elements l; Ok ("[" ++ a ++ "]")
  | PDict d => a ← members d; Ok ("{" ++ a ++ "}")
  end.

Definition is_ws (c : ascii) : bool :=
  let n := code c in
  Nat.eqb n 32 || Nat.eqb n 9 || Nat.eqb n 10 || Nat.eqb n 13.

Fixpoint skip_ws (s : string) : string :=
  match s with
  | String c s' => if is_ws c then skip_ws s' else s
  | EmptyString => EmptyString
  end.

Definition hex_value (c : ascii) : option nat :=
  let n := code c in
  if in_range 48 57 n then Some (n - 48)%nat
  else if in_range 97 102 n then Some (n - 87)%nat
  else if in_range 65 70 n then Some (n - 55)%nat
  else None.

Definition unescape (e : ascii) : option ascii :=
  let n := code e in
  if Nat.eqb n 34 then Some dq
  else if Nat.eqb n 92 then Some bs
  else if Nat.eqb n 47 then Some "/"%char
  else if Nat.eqb n 110 then Some "010"%char
  else if Nat.eqb n 114 then Some "013"%char
  else if Nat.eqb n 116 then Some "009"%char
  else if Nat.eqb n 98 then Some "008"%char
  else if Nat.eqb n 102 then Some "012"%char
  else None.

(** The characters of a string after its opening quote, up to the
    closing one. *)
Fixpoint parse_string_body (s : string) : result (string * string) :=
  match s with
  | EmptyString => Raise ValueError
  | String c s' =>
      if Ascii.eqb c dq then Ok (EmptyString, s')
      else if Ascii.eqb c bs then
        match s' with
        | String e s'' =>
            if Ascii.eqb e "u" then
              match s'' with
              | String h1 (String h2 (String h3 (String h4 rest))) =>
                  match hex_value h1, hex_value h2, hex_value h3, hex_value h4 with
                  | Some a, Some b, Some c, Some d =>
                      if Nat.eqb a 0 && Nat.eqb b 0
                      then '(str, r) ← parse_string_body rest;
                           Ok (String (ascii_of_nat (16 * c + d)) str, r)
                      else Raise Unmodelled
                  | _, _, _, _ => Raise ValueError
                  end
              | _ => Raise ValueError
              end
            else
              match unescape e with
              | Some ch => '(str, r) ← parse_string_body s''; Ok (String ch str, r)
              | None => Raise ValueError
              end
        | EmptyString => Raise ValueError
        end
      else if Nat.ltb (code c) 32 then Raise ValueError
      else '(str, r) ← parse_string_body s'; Ok (String c str, r)
  end.

Fixpoint span_digits (s : string) : string * string :=
  match s with
  | EmptyString => (EmptyString, EmptyString)
  | String c s' =>
      if isdigit c
      then let (w, rest) := span_digits s' in (String c w, rest)
      else (EmptyString, s)
  end.

Definition starts_digit (s : string) : bool :=
  match s with
  | String d _ => isdigit d
  | EmptyString => false
  end.

(** After the digits of the integer part comes a fraction (a point and a
    digit) or an exponent (e or E, an optional sign, a digit): the number
    is a float.  Anything else is left to what follows the integer. *)
Definition starts_fraction (s : string) : bool :=
  match s with
  | String c s' =>
      if Ascii.eqb c "." then starts_digit s'
      else if Ascii.eqb c "e" || Ascii.eqb c "E" then
        match s' with
        | String g s'' =>
            if Ascii.eqb g "+" || Ascii.eqb g "-" then starts_digit s'' else isdigit g
        | EmptyString => false
        end
      else false
  | EmptyString => false
  end.

(** The constants [NaN], [Infinity] and [-Infinity], which [json.loads]
    reads as floats. *)
Definition starts_float_constant (s : string) : bool :=
  String.prefix "NaN" s || String.prefix "Infinity" s || String.prefix "-Infinity" s.

Definition parse_number (s : string) : result (pyval * string) :=
  let (sign, s1) := match s with
                    | String c s' => if Ascii.eqb c "-" then ("-", s') else ("", s)
                    | EmptyString => ("", s)
                    end in
  let (ds, rest) := span_digits s1 in
  match ds with
  | EmptyString => Raise ValueError
  | String d ds' =>
      if Ascii.eqb d "0" && negb (String.eqb ds' "") then Raise ValueError
      else if starts_fraction rest then Raise Unmodelled
      else match NilZero.int_of_string (sign ++ ds) with
           | Some n => Ok (PInt (Z.of_int n), rest)
           | None => Raise ValueError
           end
  end.

Definition literal (word : string) (v : pyval) (s : string) : result (pyval * string) :=
  if String.prefix word s
  then Ok (v, str_drop (String.length word) s)
  else Raise ValueError.

Fixpoint parse_value (fuel : nat) (s : string) {struct fuel} : result (pyval * string) :=
  match fuel with
  | O => Raise ValueError
  | S fuel' =>
      match skip_ws s with
      | EmptyString => Raise ValueError
      | String c s' =>
          if Ascii.eqb c dq then
            '(str, rest) ← parse_string_body s'; Ok (PStr str, rest)
          else if Ascii.eqb c "[" then
            match skip_ws s' with
            | String c' s'' =>
                if Ascii.eqb c' "]" then Ok (PList [], s'')
                else '(l, rest) ← parse_elements fuel' (String c' s''); Ok (PList l, rest)
            | EmptyString => Raise ValueError
            end
          else if Ascii.eqb c "{" then
            match skip_ws s' with
            | String c' s'' =>
                if Ascii.eqb c' "}" then Ok (PDict [], s'')
                else '(d, rest) ← parse_members fuel' (String c' s'') []; Ok (PDict d, rest)
            | EmptyString => Raise ValueError
            end
          else if Ascii.eqb c "n" then literal "null" PNone (String c s')
          else if Ascii.eqb c "t" then literal "true" (PBool true) (String c s')
          else if Ascii.eqb c "f" then literal "false" (PBool false) (String c s')
          else if starts_float_constant (String c s') then Raise Unmodelled
          else parse_number (String c s')
      end
  end
with parse_elements (fuel : nat) (s : string) {struct fuel} : result (list pyval * string) :=
  match fuel with
  | O => Raise ValueError
  | S fuel' =>
      '(v, rest) ← parse_value fuel' s;
      match skip_ws rest with
      | String c rest' =>
          if Ascii.eqb c "," then
            '(l, rest'') ← parse_elements fuel' rest'; Ok (v :: l, rest'')
          else if Ascii.eqb c "]" then Ok ([v], rest')
          else Raise ValueError
      | EmptyString => Raise ValueError
      end
  end
with parse_members (fuel : nat) (s : string) (acc : list (pyval * pyval)) {struct fuel}
  : result (list (pyval * pyval) * string) :=
  match fuel with
  | O => Raise ValueError
  | S fuel' =>
      match skip_ws s with
      | String q s' =>
          if Ascii.eqb q dq then
            '(key, rest) ← parse_string_body s';
            match skip_ws rest with
            | String c rest' =>
                if Ascii.eqb c ":" then
                  '(v, rest'') ← parse_value fuel' rest';
                  let acc := dict_set (PStr key) v acc in
                  match skip_ws rest'' with
                  | String c' r =>
                      if Ascii.eqb c' "," then parse_members fuel' r acc
                      else if Ascii.eqb c' "}" then Ok (acc, r)
                      else Raise ValueError
                  | EmptyString => Raise ValueError
                  end
                else Raise ValueError
            | EmptyString => Raise ValueError
            end
          else Raise ValueError
      | EmptyString => Raise ValueError
      end
  end.

Definition loads_text (s : string) : result pyval :=
  '(v, rest) ← parse_value (2 * String.length s + 2) s;
  match skip_ws rest with
  | EmptyString => Ok v
  | String _ _ => Raise ValueError
  end.

Definition json : JsonModule := {| dumps := dumps_value; loads := loads_text |}.

End StdJson.

(** ** DictPersistence *)

(** [Dict[int, Dict]], [Dict[Tuple[int, ...], object]] and
    [Dict[str, ConversationDict]]. *)
Abbreviation IdDict := (gmap Z pyval).
Abbreviation ConversationDict := (gmap (list Z) pyval).
Abbreviation Conversations := (gmap string (gmap (list Z) pyval)).

(** The ten slots of a store.  [_bot_data] is [PNone] until a dictionary
    is assigned to it; the other collections are [None] until they are
    created. *)
Record DictPersistence := {
  _user_data : option IdDict;
  _chat_data : option IdDict;
  _bot_data : pyval;
  _callback_data : option (pyval * pyval);
  _conversations : option Conversations;
  _user_data_json : option string;
  _chat_data_json : option string;
  _bot_data_json : option string;
  _callback_data_json : option string;
  _conversations_json : option string
}.

Definition set_user_data v (self : DictPersistence) : DictPersistence :=
  {| _user_data := v; _chat_data := _chat_data self; _bot_data := _bot_data self;
     _callback_data := _callback_data self; _conversations := _conversations self;
     _user_data_json := _user_data_json self; _chat_data_json := _chat_data_json self;
     _bot_data_json := _bot_data_json self;
     _callback_data_json := _callback_data_json self;
     _conversations_json := _conversations_json self |}.

Definition set_chat_data v (self : DictPersistence) : DictPersistence :=
  {| _user_data := _user_data self; _chat_data := v; _bot_data := _bot_data self;
     _callback_data := _callback_data self; _conversations := _conversations self;
     _user_data_json := _user_data_json self; _chat_data_json := _chat_data_json self;
     _bot_data_json := _bot_data_json self;
     _callback_data_json := _callback_data_json self;
     _conversations_json := _conversations_json self |}.

Definition set_bot_data v (self : DictPersistence) : DictPersistence :=
  {| _user_data := _user_data self; _chat_data := _chat_data self; _bot_data := v;
     _callback_data := _callback_data self; _conversations := _conversations self;
     _user_data_json := _user_data_json self; _chat_data_json := _chat_data_json self;
     _bot_data_json := _bot_data_json self;
     _callback_data_json := _callback_data_json self;
     _conversations_json := _conversations_json self |}.

Definition set_callback_data v (self : DictPersistence) : DictPersistence :=
  {| _user_data := _user_data self; _chat_data := _chat_data self;
     _bot_data := _bot_data self;
     _callback_data := v; _conversations := _conversations self;
     _user_data_json := _user_data_json self; _chat_data_json := _chat_data_json self;
     _bot_data_json := _bot_data_json self;
     _callback_data_json := _callback_data_json self;
     _conversations_json := _conversations_json self |}.

Definition set_conversations v (self : DictPersistence) : DictPersistence :=
  {| _user_data := _user_data self; _chat_data := _chat_data self;
     _bot_data := _bot_data self;
     _callback_data := _callback_data self; _conversations := v;
     _user_data_json := _user_data_json self; _chat_data_json := _chat_data_json self;
     _bot_data_json := _bot_data_json self;
     _callback_data_json := _callback_data_json self;
     _conversations_json := _conversations_json self |}.

Definition set_user_data_json v (self : DictPersistence) : DictPersistence :=
  {| _user_data := _user_data self; _chat_data := _chat_data self;
     _bot_data := _bot_data self;
     _callback_data := _callback_data self; _conversations := _conversations self;
     _user_data_json := v; _chat_data_json := _chat_data_json self;
     _bot_data_json := _bot_data_json self;
     _callback_data_json := _callback_data_json self;
     _conversations_json := _conversations_json self |}.

Definition set_chat_data_json v (self : DictPersistence) : DictPersistence :=
  {| _user_data := _user_data self; _chat_data := _chat_data self;
     _bot_data := _bot_data self;
     _callback_data := _callback_data self; _conversations := _conversations self;
     _user_data_json := _user_data_json self; _chat_data_json := v;
     _bot_data_json := _bot_data_json self;
     _callback_data_json := _callback_data_json self;
     _conversations_json := _conversations_json self |}.

Definition set_bot_data_json v (self : DictPersistence) : DictPersistence :=
  {| _user_data := _user_data self; _chat_data := _chat_data self;
     _bot_data := _bot_data self;
     _callback_data := _callback_data self; _conversations := _conversations self;
     _user_data_json := _user_data_json self; _chat_data_json := _chat_data_json self;
     _bot_data_json := v;
     _callback_data_json := _callback_data_json self;
     _conversations_json := _conversations_json self |}.

Definition set_callback_data_json v (self : DictPersistence) : DictPersistence :=
  {| _user_data := _user_data self; _chat_data := _chat_data self;
     _bot_data := _bot_data self;
     _callback_data := _callback_data self; _conversations := _conversations self;
     _user_data_json := _user_data_json self; _chat_data_json := _chat_data_json self;
     _bot_data_json := _bot_data_json self;
     _callback_data_json := v;
     _conversations_json := _conversations_json self |}.

Definition set_conversations_json v (self : DictPersistence) : DictPersistence :=
  {| _user_data := _user_data self; _chat_data := _chat_data self;
     _bot_data := _bot_data self;
     _callback_data := _callback_data self; _conversations := _conversations self;
     _user_data_json := _user_data_json self; _chat_data_json := _chat_data_json self;
     _bot_data_json := _bot_data_json self;
     _callback_data_json := _callback_data_json self;
     _conversations_json := v |}.

(** A method runs on a store, returns or raises, and leaves a store. *)
Definition method (A : Type) : Type := DictPersistence -> result A * DictPersistence.

(** The Python value of a typed collection, as [json.dumps] and [==]
    receive it.  A finite map keeps no order of insertion: the items come
    in the order of the map, which [==] does not look at and which decides
    the order, not the content, of a serialization. *)
Definition id_dict_value (d : option IdDict) : pyval :=
  match d with
  | None => PNone
  | Some m => PDict (map (fun kv => (PInt (fst kv), snd kv)) (map_to_list m))
  end.

Definition callback_value (d : option (pyval * pyval)) : pyval :=
  match d with
  | None => PNone
  | Some (a, b) => PTuple [a; b]
  end.

(** [d.items()]. *)
Definition items (v : pyval) : result (list (pyval * pyval)) :=
  match v with
  | PDict d => Ok d
  | _ => Raise AttributeError
  end.

(** [d.copy()]. *)
Definition copy (v : pyval) : result pyval :=
  match v with
  | PDict d => Ok (PDict d)
  | PList l => Ok (PList l)
  | _ => Raise AttributeError
  end.

(** [tuple(v)]. *)
Definition tuple (v : pyval) : result (list pyval) :=
  match v with
  | PList l | PTuple l => Ok l
  | PDict d => Ok (map fst d)
  | PStr s => Ok (map (fun c => PStr (String c EmptyString)) (list_ascii_of_string s))
  | _ => Raise TypeError
  end.

(** A tuple as a conversation key, which is typed [Tuple[int, ...]]. *)
Fixpoint int_tuple (l : list pyval) : result (list Z) :=
  match l with
  | [] => Ok []
  | PInt z :: l' => t ← int_tuple l'; Ok (z :: t)
  | _ :: _ => Raise Unmodelled
  end.

(** [except (ValueError, AttributeError) as exc: raise TypeError(...) from exc]. *)
Definition except_as_TypeError {A} (r : result A) : result A :=
  match r with
  | Raise ValueError | Raise AttributeError => Raise TypeError
  | _ => r
  end.

(** The characters that [int] skips around a number: the white space of
    ASCII (TAB to CR and the space) and, beyond ASCII, NEL and the no-break
    space.  FS to US are white space for [str.isspace], not for [int]. *)
Definition int_space (c : ascii) : bool :=
  let n := code c in
  in_range 9 13 n || Nat.eqb n 32 || Nat.eqb n 133 || Nat.eqb n 160.

Fixpoint int_lstrip (s : string) : string :=
  match s with
  | String c s' => if int_space c then int_lstrip s' else s
  | EmptyString => EmptyString
  end.

Definition int_strip (s : string) : string :=
  String.rev (int_lstrip (String.rev (int_lstrip s))).

Fixpoint grouped_digits (after_digit : bool) (s : string) : option string :=
  match s with
  | EmptyString => if after_digit then Some EmptyString else None
  | String c s' =>
      if isdigit c then String c <$> grouped_digits true s'
      else if Ascii.eqb c "_" && after_digit then grouped_digits false s'
      else None
  end.

(** [int(s)] on a string: white space around an optional sign and decimal
    digits, where single underscores may separate digits.  The number of
    digits is not bounded, as in the versions of Python before 3.11. *)
Definition int_of_str (s : string) : result Z :=
  let s := int_strip s in
  let (sign, body) := match s with
                      | String c s' =>
                          if Ascii.eqb c "-" then ("-", s')
                          else if Ascii.eqb c "+" then ("", s')
                          else ("", s)
                      | EmptyString => ("", s)
                      end in
  match grouped_digits false body with
  | Some ds =>
      match NilZero.int_of_string (sign ++ ds) with
      | Some n => Ok (Z.of_int n)
      | None => Raise ValueError
      end
  | None => Raise ValueError
  end.

(** [int(v)]. *)
Definition int (v : pyval) : result Z :=
  match v with
  | PInt z => Ok z
  | PBool b => Ok (Z.b2z b)
  | PStr s => int_of_str s
  | _ => Raise TypeError
  end.

(** [v[i]] for a literal index [i] that is not negative. *)
Definition subscript (v : pyval) (i : nat) : result pyval :=
  match v with
  | PList l | PTuple l => getitem l i
  | PStr s =>
      match nth_error (list_ascii_of_string s) i with
      | Some c => Ok (PStr (String c EmptyString))
      | None => Raise IndexError
      end
  | PDict d =>
      match List.find (fun kv => py_eqb (fst kv) (PInt (Z.of_nat i))) d with
      | Some kv => Ok (snd kv)
      | None => Raise KeyError
      end
  | PNone | PBool _ | PInt _ => Raise TypeError
  end.

(** [except (ValueError, IndexError) as exc: raise TypeError(...) from exc]. *)
Definition except_as_format_error {A} (r : result A) : result A :=
  match r with
  | Raise ValueError | Raise IndexError => Raise TypeError
  | _ => r
  end.

(** [[(one, float(two), three) for one, two, three in entries]].  Without
    entries the list is empty.  The first entry is unpacked into three
    items, and [float] is called on the second: it raises [TypeError] on
    [None], a list, a tuple and a dictionary; on a number it gives a float
    and on a string it reads one, which is where the model stops. *)
Definition coerce_entries (entries : list pyval) : result (list pyval) :=
  match entries with
  | [] => Ok []
  | entry :: _ =>
      unpacked ← tuple entry;
      match unpacked with
      | [_; two; _] =>
          match two with
          | PBool _ | PInt _ | PStr _ => Raise Unmodelled
          | PNone | PList _ | PTuple _ | PDict _ => Raise TypeError
          end
      | _ => Raise ValueError
      end
  end.

Section Store.
Context {json : JsonModule}.

(** *** Encoding and decoding *)

Fixpoint encode_states (states : list (list Z * pyval)) (tmp_handler : list (pyval * pyval))
  : result (list (pyval * pyval)) :=
  match states with
  | [] => Ok tmp_handler
  | (key, state) :: states' =>
      k ← dumps (PTuple (map PInt key));
      encode_states states' (dict_set (PStr k) state tmp_handler)
  end.

Fixpoint encode_handlers (conversations : list (string * ConversationDict))
    (tmp : list (pyval * pyval)) : result (list (pyval * pyval)) :=
  match conversations with
  | [] => Ok tmp
  | (handler, states) :: conversations' =>
      tmp_handler ← encode_states (map_to_list states) [];
      encode_handlers conversations' (dict_set (PStr handler) (PDict tmp_handler) tmp)
  end.

(** [_encode_conversations_to_json], called on the slot [_conversations]. *)
Definition _encode_conversations_to_json (conversations : option Conversations)
  : result string :=
  match conversations with
  | None => Raise AttributeError
  | Some convs =>
      tmp ← encode_handlers (map_to_list convs) [];
      dumps (PDict tmp)
  end.

Fixpoint decode_states (states : list (pyval * pyval)) (acc : ConversationDict)
  : result ConversationDict :=
  match states with
  | [] => Ok acc
  | (key, state) :: states' =>
      match key with
      | PStr k =>
          v ← loads k;
          t ← tuple v;
          key' ← int_tuple t;
          decode_states states' (<[key' := state]> acc)
      | _ => Raise TypeError
      end
  end.

Fixpoint decode_handlers (tmp : list (pyval * pyval)) (conversations : Conversations)
  : result Conversations :=
  match tmp with
  | [] => Ok conversations
  | (handler, states) :: tmp' =>
      match handler with
      | PStr h =>
          st ← items states;
          inner ← decode_states st ∅;
          decode_handlers tmp' (<[h := inner]> conversations)
      | _ => Raise Unmodelled
      end
  end.

Definition _decode_conversations_from_json (json_string : string) : result Conversations :=
  tmp ← loads json_string;
  its ← items tmp;
  decode_handlers its ∅.

Fixpoint decode_entries (entries : list (pyval * pyval)) (acc : list (pyval * pyval))
  : result (list (pyval * pyval)) :=
  match entries with
  | [] => Ok acc
  | (key, value) :: entries' =>
      key' ← match int key with
             | Ok z => Ok (PInt z)
             | Raise ValueError => Ok key
             | Raise e => Raise e
             end;
      decode_entries entries' (dict_set key' value acc)
  end.

Fixpoint decode_users (decoded_data : list (pyval * pyval)) (tmp : IdDict)
  : result IdDict :=
  match decoded_data with
  | [] => Ok tmp
  | (user, user_data) :: decoded_data' =>
      user' ← int user;
      entries ← items user_data;
      inner ← decode_entries entries [];
      decode_users decoded_data' (<[user' := PDict inner]> tmp)
  end.

Definition _decode_user_chat_data_from_json (data : string) : result IdDict :=
  decoded_data ← loads data;
  its ← items decoded_data;
  decode_users its ∅.

(** The callback data of a payload: the pair of
    [[(one, float(two), three) for one, two, three in data[0]]] and of
    [data[1]], built under [except (ValueError, IndexError)], and the check
    of the format that follows.  The model follows the code up to the first
    call of [float] on a number or a string: a payload with such an entry
    has no value in the model. *)
Definition decode_callback_data (data : pyval) : result (option (pyval * pyval)) :=
  match data with
  | PNone => Ok None
  | _ =>
      built ← except_as_format_error
                (first ← subscript data 0;
                 entries ← tuple first;
                 coerced ← coerce_entries entries;
                 second ← subscript data 1;
                 Ok (coerced, second));
      match snd built with
      | PDict _ => Ok (Some (PList (fst built), snd built))
      | _ => Raise TypeError
      end
  end.

(** *** Construction *)

Definition DictPersistence_new : DictPersistence :=
  {| _user_data := None; _chat_data := None; _bot_data := PNone;
     _callback_data := None; _conversations := None;
     _user_data_json := None; _chat_data_json := None; _bot_data_json := None;
     _callback_data_json := None; _conversations_json := None |}.

Definition DictPersistence_init
    (user_data_json chat_data_json bot_data_json conversations_json
     callback_data_json : string) : result DictPersistence :=
  let self := DictPersistence_new in
  self ← (if String.eqb user_data_json "" then Ok self
          else
            d ← except_as_TypeError (_decode_user_chat_data_from_json user_data_json);
            Ok (set_user_data_json (Some user_data_json) (set_user_data (Some d) self)));
  self ← (if String.eqb chat_data_json "" then Ok self
          else
            d ← except_as_TypeError (_decode_user_chat_data_from_json chat_data_json);
            Ok (set_chat_data_json (Some chat_data_json) (set_chat_data (Some d) self)));
  self ← (if String.eqb bot_data_json "" then Ok self
          else
            d ← except_as_TypeError (loads bot_data_json);
            match d with
            | PDict _ => Ok (set_bot_data_json (Some bot_data_json) (set_bot_data d self))
            | _ => Raise TypeError
            end);
  self ← (if String.eqb callback_data_json "" then Ok self
          else
            data ← except_as_TypeError (loads callback_data_json);
            d ← decode_callback_data data;
            Ok (set_callback_data_json (Some callback_data_json)
                  (set_callback_data d self)));
  if String.eqb conversations_json "" then Ok self
  else
    d ← except_as_TypeError (_decode_conversations_from_json conversations_json);
    Ok (set_conversations_json (Some conversations_json) (set_conversations (Some d) self)).

(** *** The properties that serialize *)

Definition user_data_json : method string := fun self =>
  match nonempty (_user_data_json self) with
  | Some s => (Ok s, self)
  | None => (dumps (id_dict_value (_user_data self)), self)
  end.

Definition chat_data_json : method string := fun self =>
  match nonempty (_chat_data_json self) with
  | Some s => (Ok s, self)
  | None => (dumps (id_dict_value (_chat_data self)), self)
  end.

Definition bot_data_json : method string := fun self =>
  match nonempty (_bot_data_json self) with
  | Some s => (Ok s, self)
  | None => (dumps (_bot_data self), self)
  end.

Definition callback_data_json : method string := fun self =>
  match nonempty (_callback_data_json self) with
  | Some s => (Ok s, self)
  | None => (dumps (callback_value (_callback_data self)), self)
  end.

Definition conversations_json : method string := fun self =>
  match nonempty (_conversations_json self) with
  | Some s => (Ok s, self)
  | None => (_encode_conversations_to_json (_conversations self), self)
  end.

(** *** Accessors *)

Definition get_user_data : method IdDict := fun self =>
  match _user_data self with
  | None => (Ok ∅, set_user_data (Some ∅) self)
  | Some d => (Ok d, self)
  end.

Definition get_chat_data : method IdDict := fun self =>
  match _chat_data self with
  | None => (Ok ∅, set_chat_data (Some ∅) self)
  | Some d => (Ok d, self)
  end.

Definition get_bot_data : method pyval := fun self =>
  match _bot_data self with
  | PNone => (Ok (PDict []), set_bot_data (PDict []) self)
  | d => (Ok d, self)
  end.

Definition get_callback_data : method (option (pyval * pyval)) := fun self =>
  match _callback_data self with
  | None => (Ok None, set_callback_data None self)
  | Some (a, b) =>
      match copy b with
      | Ok b' => (Ok (Some (a, b')), self)
      | Raise e => (Raise e, self)
      end
  end.

Definition get_conversations (name : string) : method ConversationDict := fun self =>
  match _conversations self with
  | None => (Ok ∅, set_conversations (Some ∅) self)
  | Some convs => (Ok (default ∅ (convs !! name)), self)
  end.

(** *** Mutators *)

Definition update_conversation (name : string) (key : list Z) (new_state : pyval)
  : method unit := fun self =>
  let self := match _conversations self with
              | Some c => if Nat.eqb (size c) 0 then set_conversations (Some ∅) self
                          else self
              | None => set_conversations (Some ∅) self
              end in
  let convs := default ∅ (_conversations self) in
  let states := default ∅ (convs !! name) in
  let convs := match convs !! name with
               | Some _ => convs
               | None => <[name := ∅]> convs
               end in
  let self := set_conversations (Some convs) self in
  if py_eqb (default PNone (states !! key)) new_state then (Ok tt, self)
  else
    let self := set_conversations (Some (<[name := <[key := new_state]> states]> convs)) self in
    let self := set_conversations_json None self in
    (Ok tt, self).

Definition update_user_data (user_id : Z) (data : pyval) : method unit := fun self =>
  let self := match _user_data self with
              | None => set_user_data (Some ∅) self
              | Some _ => self
              end in
  let d := default ∅ (_user_data self) in
  if py_eqb (default PNone (d !! user_id)) data then (Ok tt, self)
  else
    let self := set_user_data (Some (<[user_id := data]> d)) self in
    let self := set_user_data_json None self in
    (Ok tt, self).

Definition update_chat_data (chat_id : Z) (data : pyval) : method unit := fun self =>
  let self := match _chat_data self with
              | None => set_chat_data (Some ∅) self
              | Some _ => self
              end in
  let d := default ∅ (_chat_data self) in
  if py_eqb (default PNone (d !! chat_id)) data then (Ok tt, self)
  else
    let self := set_chat_data (Some (<[chat_id := data]> d)) self in
    let self := set_chat_data_json None self in
    (Ok tt, self).

Definition update_bot_data (data : pyval) : method unit := fun self =>
  if py_eqb (_bot_data self) data then (Ok tt, self)
  else
    let self := set_bot_data data self in
    let self := set_bot_data_json None self in
    (Ok tt, self).

Definition update_callback_data (data : pyval * pyval) : method unit := fun self =>
  if py_eqb (callback_value (_callback_data self)) (PTuple [fst data; snd data])
  then (Ok tt, self)
  else
    match copy (snd data) with
    | Ok d1 =>
        let self := set_callback_data (Some (fst data, d1)) self in
        let self := set_callback_data_json None self in
        (Ok tt, self)
    | Raise e => (Raise e, self)
    end.

End Store.

(** ** Notions of the specification *)

(** The class of the pattern [^[a-z0-9_]{1,32}$] of the specification. *)
Definition spec_command_char (c : ascii) : bool :=
  in_range 97 122 (code c) || in_range 48 57 (code c) || Nat.eqb (code c) 95.

(** A token matches the pattern of the specification: it is made of 1 to 32
    characters of the class, from its first character to its last. *)
Definition spec_command_pattern (s : string) : bool :=
  Nat.leb 1 (String.length s) && Nat.leb (String.length s) 32
  && forallb spec_command_char (list_ascii_of_string s).

(** The strings that a value given for [prefix] or [command] stands for. *)
Definition as_list (x : SLT) : list string :=
  match x with
  | Str s => [s]
  | Seq l => l
  end.

(** The cartesian concatenation of lower-cased prefixes and commands. *)
Definition triggers (prefixes commands : list string) : list string :=
  flat_map (fun x => map (fun y => lower x ++ lower y) commands) prefixes.

(** The handler [h] is in the state that the assignment of [prefixes] to
    its property [prefix] and of [commands] to its property [command]
    leaves. *)
Definition triggers_of (h : PrefixHandler) (prefixes commands : list string) : Prop :=
  map lower (_prefix h) = map lower prefixes
  /\ map lower (_command h) = map lower commands
  /\ _commands h = triggers prefixes commands.

(** [check_update] matched: it returned [False] or a pair, not [None]. *)
Definition is_match (r : result MatchResult) : bool :=
  match r with
  | Ok Rejected | Ok (Matched _ _) => true
  | _ => false
  end.

(** An update that carries [m] as an ordinary message. *)
Definition message_update (m : Message) : Update :=
  {| message := Some m; edited_message := None;
     channel_post := None; edited_channel_post := None |}.

(** A text message with a bot-command entity of [len] characters at
    offset 0, received by the bot [name]. *)
Definition command_message (txt : string) (len : Z) (name : string) : Message :=
  {| text := Some txt;
     entities := [ {| MessageEntity.type := MessageEntity.BOT_COMMAND;
                      MessageEntity.offset := 0;
                      MessageEntity.length := len |} ];
     bot := Some {| username := name |} |}.

(** A text message without entities. *)
Definition text_message (txt : string) : Message :=
  {| text := Some txt; entities := []; bot := None |}.

(** No cache slot holds the empty string. *)
Definition caches_nonempty (s : DictPersistence) : Prop :=
  _user_data_json s <> Some "" /\ _chat_data_json s <> Some ""
  /\ _bot_data_json s <> Some "" /\ _callback_data_json s <> Some ""
  /\ _conversations_json s <> Some "".

(** The list that the setter of [prefix] or [command] stores for a value. *)
Definition assigned (x : SLT) : list string :=
  match x with
  | Str s => [lower s]
  | Seq l => l
  end.

(** The five collections of a store, each with its cache slot. *)
Inductive Collection :=
| UserData
| ChatData
| BotData
| CallbackData
| ConversationsData.

Definition cache_of (c : Collection) (s : DictPersistence) : option string :=
  match c with
  | UserData => _user_data_json s
  | ChatData => _chat_data_json s
  | BotData => _bot_data_json s
  | CallbackData => _callback_data_json s
  | ConversationsData => _conversations_json s
  end.

(** The collection [c] is the same in [s] and [s']. *)
Definition same_collection (c : Collection) (s s' : DictPersistence) : Prop :=
  match c with
  | UserData => _user_data s = _user_data s'
  | ChatData => _chat_data s = _chat_data s'
  | BotData => _bot_data s = _bot_data s'
  | CallbackData => _callback_data s = _callback_data s'
  | ConversationsData => _conversations s = _conversations s'
  end.

(** Every collection but [c], and every cache but the one of [c], is the
    same in [s] and [s']. *)
Definition siblings_unchanged (c : Collection) (s s' : DictPersistence) : Prop :=
  forall c', c' <> c -> same_collection c' s s' /\ cache_of c' s = cache_of c' s'.

(** A call of one of the five mutators. *)
Inductive Mutation :=
| UpdateUserData (user_id : Z) (data : pyval)
| UpdateChatData (chat_id : Z) (data : pyval)
| UpdateBotData (data : pyval)
| UpdateCallbackData (data : pyval * pyval)
| UpdateConversation (name : string) (key : list Z) (new_state : pyval).

Definition affected (m : Mutation) : Collection :=
  match m with
  | UpdateUserData _ _ => UserData
  | UpdateChatData _ _ => ChatData
  | UpdateBotData _ => BotData
  | UpdateCallbackData _ => CallbackData
  | UpdateConversation _ _ _ => ConversationsData
  end.

Definition run (m : Mutation) : method unit :=
  match m with
  | UpdateUserData user_id data => update_user_data user_id data
  | UpdateChatData chat_id data => update_chat_data chat_id data
  | UpdateBotData data => update_bot_data data
  | UpdateCallbackData data => update_callback_data data
  | UpdateConversation name key new_state => update_conversation name key new_state
  end.

(** The value that the call [m] brings. *)
Definition new_value (m : Mutation) : pyval :=
  match m with
  | UpdateUserData _ data | UpdateChatData _ data | UpdateBotData data => data
  | UpdateCallbackData data => PTuple [fst data; snd data]
  | UpdateConversation _ _ new_state => new_state
  end.

(** The value that the store holds where the call [m] writes, when it
    holds one. *)
Definition stored_value (m : Mutation) (s : DictPersistence) : option pyval :=
  match m with
  | UpdateUserData user_id _ => d ← _user_data s; d !! user_id
  | UpdateChatData chat_id _ => d ← _chat_data s; d !! chat_id
  | UpdateBotData _ => Some (_bot_data s)
  | UpdateCallbackData _ =>
      match _callback_data s with
      | Some (a, b) => Some (PTuple [a; b])
      | None => None
      end
  | UpdateConversation name key _ =>
      convs ← _conversations s; states ← convs !! name; states !! key
  end.

(** The value that the test [==] of the mutator compares with the new one:
    the stored value, or [None] where nothing is stored. *)
Definition compared_value (m : Mutation) (s : DictPersistence) : pyval :=
  default PNone (stored_value m s).

(** A collection that was never created has no cache. *)
Definition caches_backed (s : DictPersistence) : Prop :=
  (_user_data s = None -> _user_data_json s = None)
  /\ (_chat_data s = None -> _chat_data_json s = None).

(** The store [s] with the cache slot of the collection [c] set to [v]. *)
Definition set_cache (c : Collection) (v : option string) (s : DictPersistence)
  : DictPersistence :=
  match c with
  | UserData => set_user_data_json v s
  | ChatData => set_chat_data_json v s
  | BotData => set_bot_data_json v s
  | CallbackData => set_callback_data_json v s
  | ConversationsData => set_conversations_json v s
  end.

(** The collection that the call [m] writes exists in [s], with the
    dictionary of the handler for a call on conversations. *)
Definition created (m : Mutation) (s : DictPersistence) : Prop :=
  match m with
  | UpdateUserData _ _ => is_Some (_user_data s)
  | UpdateChatData _ _ => is_Some (_chat_data s)
  | UpdateBotData _ | UpdateCallbackData _ => True
  | UpdateConversation name _ _ =>
      exists convs, _conversations s = Some convs /\ is_Some (convs !! name)
  end.

Section Serialization.
Context {json : JsonModule}.

(** The property that serializes the collection [c]. *)
Definition json_property (c : Collection) : method string :=
  match c with
  | UserData => user_data_json
  | ChatData => chat_data_json
  | BotData => bot_data_json
  | CallbackData => callback_data_json
  | ConversationsData => conversations_json
  end.

(** The serialization of the live collection [c]. *)
Definition serialize (c : Collection) (s : DictPersistence) : result string :=
  match c with
  | UserData => dumps (id_dict_value (_user_data s))
  | ChatData => dumps (id_dict_value (_chat_data s))
  | BotData => dumps (_bot_data s)
  | CallbackData => dumps (callback_value (_callback_data s))
  | ConversationsData => _encode_conversations_to_json (_conversations s)
  end.
End Serialization.

(** The dictionary of conversations once [setdefault] has run for the
    handler [name]. *)
Definition with_handler (name : string) (convs : option Conversations) : Conversations :=
  match default ∅ convs !! name with
  | Some _ => default ∅ convs
  | None => <[name := ∅]> (default ∅ convs)
  end.

Section RoundTripNotions.
Context {json : JsonModule}.

(** The text that [json.dumps] gives for a conversation key. *)
Definition key_text (k : list Z) : string :=
  match dumps (PTuple (map PInt k)) with
  | Ok s => s
  | Raise _ => ""
  end.

(** The key [k] is written by [json.dumps], and [json.loads] followed by
    [tuple] reads the same tuple of integers back. *)
Definition key_round_trips (k : list Z) : Prop :=
  exists ks kv, dumps (PTuple (map PInt k)) = Ok ks /\ loads ks = Ok kv
                /\ tuple kv ≫= int_tuple = Ok k.

Definition states_round_trip (st : ConversationDict) : Prop :=
  forall k v, st !! k = Some v -> key_round_trips k.

(** Every key of [convs] is written and read back as the same tuple. *)
Definition keys_round_trip (convs : Conversations) : Prop :=
  forall h st k v, convs !! h = Some st -> st !! k = Some v -> key_round_trips k.

Definition enc_item (kv : list Z * pyval) : pyval * pyval :=
  (PStr (key_text kv.1), kv.2).

(** The states of one handler, as [_encode_conversations_to_json] writes
    them into [tmp]. *)
Definition enc_states (st : ConversationDict) : pyval :=
  PDict (map enc_item (map_to_list st)).

Definition enc_handler (hs : string * ConversationDict) : pyval * pyval :=
  (PStr hs.1, enc_states hs.2).

(** The dictionary [tmp] that [_encode_conversations_to_json] hands to
    [json.dumps]. *)
Definition document (convs : Conversations) : pyval :=
  PDict (map enc_handler (map_to_list convs)).
End RoundTripNotions.

Section Reachability.
Context {json : JsonModule}.

(** The stores that a program can hold: built by the constructor and
    then used through the methods. *)
Inductive reachable : DictPersistence -> Prop :=
| reach_init a b c d e s :
    DictPersistence_init a b c d e = Ok s -> reachable s
| reach_run m s : reachable s -> reachable (snd (run m s))
| reach_get_user_data s : reachable s -> reachable (snd (get_user_data s))
| reach_get_chat_data s : reachable s -> reachable (snd (get_chat_data s))
| reach_get_bot_data s : reachable s -> reachable (snd (get_bot_data s))
| reach_get_callback_data s : reachable s -> reachable (snd (get_callback_data s))
| reach_get_conversations name s :
    reachable s -> reachable (snd (get_conversations name s))
| reach_json_property c s : reachable s -> reachable (snd (json_property c s)).
End Reachability.

(** ** Notions of the further properties *)

(** The string holds no [@]. *)
Definition no_at (s : string) : bool :=
  forallb (fun c => negb (Ascii.eqb c "@")) (list_ascii_of_string s).

(** A token of [str.split()]: not empty, and without white space. *)
Definition is_token (s : string) : Prop :=
  s <> "" /\ forallb (fun c => negb (isspace c)) (list_ascii_of_string s) = true.

(** A message of the shape that [CommandHandler.check_update] looks at: a
    first entity that is a bot command at offset 0 and [len] characters
    long, a text that is not empty, and a bot. *)
Definition command_shaped (m : Message) (txt : string) (len : Z) (b : Bot) : Prop :=
  exists e0 es,
    entities m = e0 :: es
    /\ MessageEntity.type e0 = MessageEntity.BOT_COMMAND
    /\ MessageEntity.offset e0 = 0
    /\ MessageEntity.length e0 = len
    /\ text m = Some txt /\ txt <> "" /\ bot m = Some b.

(** Modelled from the spec: the class [CallbackContext] is not part of the
    sources at hand.  A context holds its attributes by name, among them
    [args]; [context.update(d)] merges the entries of the mapping [d] into
    the attributes. *)
Record CallbackContext := {
  attributes : list (pyval * pyval)
}.

Definition setattr (name : string) (v : pyval) (context : CallbackContext)
  : CallbackContext :=
  {| attributes := dict_set (PStr name) v (attributes context) |}.

Definition getattr (name : string) (context : CallbackContext) : option pyval :=
  snd <$> List.find (fun kv => py_eqb (fst kv) (PStr name)) (attributes context).

Definition context_update (d : list (pyval * pyval)) (context : CallbackContext)
  : CallbackContext :=
  {| attributes := fold_left (fun acc kv => dict_set (fst kv) (snd kv) acc) d
                             (attributes context) |}.

(** [CommandHandler.collect_additional_context], which [PrefixHandler]
    inherits: [check_result] is what [check_update] returned. *)
Definition collect_additional_context (context : CallbackContext)
    (check_result : MatchResult) : CallbackContext :=
  match check_result with
  | Matched args filter_result =>
      let context := setattr "args" (PList (map PStr args)) context in
      match filter_result with
      | PDict d => context_update d context
      | _ => context
      end
  | _ => context
  end.

(** The check of [CommandHandler.__init__] passes the token: its lower-cased
    form is made of 1 to 32 characters of the class, or of as many followed
    by one line feed. *)
Definition accepted_token (t : string) : Prop :=
  spec_command_pattern (lower t) = true
  \/ exists w, lower t = w ++ newline /\ spec_command_pattern w = true.

(** A check result that is a pair. *)
Definition is_pair (r : MatchResult) : bool :=
  match r with
  | Matched _ _ => true
  | _ => false
  end.

(** The update carries a message whose text is not empty and holds white
    space only: [text.split()] is the empty list. *)
Definition blank_text (update : object) : bool :=
  match update with
  | AnUpdate u =>
      match effective_message u with
      | Some m =>
          match nonempty (text m) with
          | Some txt => match split txt with
                        | [] => true
                        | _ :: _ => false
                        end
          | None => false
          end
      | None => false
      end
  | NotAnUpdate => false
  end.

(** The text that the constructor receives for the collection [c]. *)
Definition constructor_input (c : Collection)
    (user_data_json chat_data_json bot_data_json conversations_json
     callback_data_json : string) : string :=
  match c with
  | UserData => user_data_json
  | ChatData => chat_data_json
  | BotData => bot_data_json
  | CallbackData => callback_data_json
  | ConversationsData => conversations_json
  end.


Definition is_dict (v : pyval) : bool :=
  match v with
  | PDict _ => true
  | _ => false
  end.

(** The collection [c] of the store [s] was never created: its slot holds
    [None]. *)
Definition absent (c : Collection) (s : DictPersistence) : Prop :=
  match c with
  | UserData => _user_data s = None
  | ChatData => _chat_data s = None
  | BotData => _bot_data s = PNone
  | CallbackData => _callback_data s = None
  | ConversationsData => _conversations s = None
  end.

(** A call of one of the five accessors. *)
Inductive Accessor :=
| GetUserData
| GetChatData
| GetBotData
| GetCallbackData
| GetConversations (name : string).

Definition accessed (a : Accessor) : Collection :=
  match a with
  | GetUserData => UserData
  | GetChatData => ChatData
  | GetBotData => BotData
  | GetCallbackData => CallbackData
  | GetConversations _ => ConversationsData
  end.

(** The store that the call [a] leaves. *)
Definition access (a : Accessor) (s : DictPersistence) : DictPersistence :=
  match a with
  | GetUserData => snd (get_user_data s)
  | GetChatData => snd (get_chat_data s)
  | GetBotData => snd (get_bot_data s)
  | GetCallbackData => snd (get_callback_data s)
  | GetConversations name => snd (get_conversations name s)
  end.

(** The states of the handler [name] in the store [s], as
    [get_conversations] reads them. *)
Definition states_of (name : string) (s : DictPersistence) : ConversationDict :=
  default ∅ (default ∅ (_conversations s) !! name).

(** A key of an inner dictionary as [_decode_user_chat_data_from_json]
    leaves it: an integer, or a key that [int] refuses with
    [ValueError]. *)
Definition decoded_key (k : pyval) : bool :=
  match k with
  | PInt _ => true
  | _ => match int k with
         | Raise ValueError => true
         | _ => false
         end
  end.

(** The key that a JSON text holds for the key [k] of a dictionary: the
    decimal text of an integer, and a string as it is. *)
Definition json_key (k : pyval) : pyval :=
  match k with
  | PInt z => PStr (StdJson.decimal z)
  | _ => k
  end.

Definition json_entries (entries : list (pyval * pyval)) : list (pyval * pyval) :=
  map (fun kv => (json_key kv.1, kv.2)) entries.

Definition json_user (kv : Z * pyval) : pyval * pyval :=
  (PStr (StdJson.decimal kv.1),
   match kv.2 with
   | PDict entries => PDict (json_entries entries)
   | v => v
   end).

(** The value [v] is a dictionary that a JSON text holds for the user or
    chat data [d]: the ids and the integer keys of the inner dictionaries
    are strings, and the ids come in any order. *)
Definition id_document (d : IdDict) (v : pyval) : Prop :=
  exists payload, v = PDict payload /\ payload ≡ₚ map json_user (map_to_list d).

(** The keys of [entries] are integers or strings that [int] refuses, and
    no two of them are equal. *)
Definition string_or_int (k : pyval) : bool :=
  match k with
  | PInt _ => true
  | PStr s => match int_of_str s with
              | Raise ValueError => true
              | _ => false
              end
  | _ => false
  end.

Fixpoint distinct_keys (entries : list (pyval * pyval)) : bool :=
  match entries with
  | [] => true
  | (k, _) :: entries' =>
      forallb (fun kv => negb (py_eqb k kv.1)) entries' && distinct_keys entries'
  end.

Definition survives (v : pyval) : bool :=
  match v with
  | PDict entries => forallb (fun kv => string_or_int kv.1) entries && distinct_keys entries
  | _ => false
  end.

(** The constructor called with the text [t] for the collection [c] and
    with the default, the empty string, for the others. *)
Definition init_only {json : JsonModule} (c : Collection) (t : string)
  : result DictPersistence :=
  match c with
  | UserData => DictPersistence_init t "" "" "" ""
  | ChatData => DictPersistence_init "" t "" "" ""
  | BotData => DictPersistence_init "" "" t "" ""
  | ConversationsData => DictPersistence_init "" "" "" t ""
  | CallbackData => DictPersistence_init "" "" "" "" t
  end.

(** * Properties *)

(** ** Strings and the validation of commands *)

Lemma lower_char_idem c : lower_char (lower_char c) = lower_char c.
Proof. destruct c as [[] [] [] [] [] [] [] []]; reflexivity. Qed.

Lemma lower_idem s : lower (lower s) = lower s.
Proof. induction s as [|c s IH]; simpl; [reflexivity|]. by rewrite lower_char_idem, IH. Qed.

Lemma command_char_spec c : is_command_char c = spec_command_char c.
Proof. destruct c as [[] [] [] [] [] [] [] []]; reflexivity. Qed.

Lemma app_str_nil (b : string) : "" ++ b = b.
Proof. reflexivity. Qed.

Lemma app_str_cons c (a b : string) : String c a ++ b = String c (a ++ b).
Proof. reflexivity. Qed.

Lemma app_str_nil_r (a : string) : a ++ "" = a.
Proof. induction a as [|c a IH]; [done|]. by rewrite app_str_cons, IH. Qed.

Lemma span_command_chars_app s :
  let (w, rest) := span_command_chars s in
  s = w ++ rest
  /\ forallb spec_command_char (list_ascii_of_string w) = true
  /\ match rest with
     | String c _ => spec_command_char c = false
     | EmptyString => True
     end.
Proof.
  induction s as [|c s IH]; simpl; [done|].
  destruct (is_command_char c) eqn:Hc.
  - destruct (span_command_chars s) as [w rest]. destruct IH as (-> & Hw & Hr).
    rewrite app_str_cons. simpl. rewrite <- command_char_spec, Hc. done.
  - simpl. rewrite <- command_char_spec. done.
Qed.

Lemma spec_pattern_span s :
  spec_command_pattern s = true -> span_command_chars s = (s, "").
Proof.
  unfold spec_command_pattern. intros H.
  apply andb_true_iff in H as [_ H].
  induction s as [|c s IH]; simpl in *; [done|].
  apply andb_true_iff in H as [Hc H]. rewrite command_char_spec, Hc.
  by rewrite (IH H).
Qed.

Lemma length_app_str (a b : string) :
  String.length (a ++ b) = (String.length a + String.length b)%nat.
Proof.
  induction a as [|c a IH]; [done|]. rewrite app_str_cons. simpl. by rewrite IH.
Qed.

Lemma span_command_chars_newline w :
  spec_command_pattern w = true -> span_command_chars (w ++ newline) = (w, newline).
Proof.
  unfold spec_command_pattern. intros H.
  apply andb_true_iff in H as [_ H].
  induction w as [|c w IH]; [done|]. rewrite app_str_cons. simpl in *.
  apply andb_true_iff in H as [Hc H]. rewrite command_char_spec, Hc.
  by rewrite (IH H).
Qed.

(** The check of the source accepts the tokens of the pattern and, besides
    them, the same tokens followed by one line feed. *)
Lemma re_match_command_spec s :
  re_match_command s = true <->
  spec_command_pattern s = true
  \/ exists w, s = w ++ newline /\ spec_command_pattern w = true.
Proof.
  unfold re_match_command. split.
  - pose proof (span_command_chars_app s) as Hs.
    destruct (span_command_chars s) as [w rest]. destruct Hs as (-> & Hw & Hr).
    intros H. apply andb_true_iff in H as [H Hrest].
    assert (Hpat : spec_command_pattern w = true).
    { unfold spec_command_pattern. by rewrite H, Hw. }
    apply orb_true_iff in Hrest as [Hrest|Hrest]; apply String.eqb_eq in Hrest; subst rest.
    + left. by rewrite app_str_nil_r.
    + right. eauto.
  - intros [H|(w & -> & H)].
    + rewrite (spec_pattern_span _ H). unfold spec_command_pattern in H.
      apply andb_true_iff in H as [H _]. by rewrite H.
    + rewrite (span_command_chars_newline _ H). unfold spec_command_pattern in H.
      apply andb_true_iff in H as [H _]. by rewrite H.
Qed.

Lemma forallb_map_lower (f : string -> bool) l :
  forallb f (map lower l) = forallb (fun x => f (lower x)) l.
Proof. induction l as [|x l IH]; simpl; congruence. Qed.

Lemma validate_commands_ok l :
  validate_commands l = Ok tt <-> forallb re_match_command l = true.
Proof.
  induction l as [|x l IH]; simpl; [done|].
  destruct (re_match_command x); simpl; [done|]. split; discriminate.
Qed.

Lemma validate_commands_raise l :
  validate_commands l = Raise ValueError <-> forallb re_match_command l = false.
Proof.
  induction l as [|x l IH]; simpl; [split; discriminate|].
  destruct (re_match_command x); simpl; [done|]. done.
Qed.

(** Construction succeeds when every token, lower-cased, matches the
    pattern of the specification. *)
Lemma CommandHandler_init_valid cmds filters :
  forallb (fun x => spec_command_pattern (lower x)) (as_list cmds) = true ->
  exists h, CommandHandler_init cmds filters = Ok h
            /\ command h = map lower (as_list cmds).
Proof.
  intros H.
  assert (Hv : validate_commands (map lower (as_list cmds)) = Ok tt).
  { apply validate_commands_ok. rewrite forallb_map_lower.
    rewrite forallb_forall in *. intros x Hx.
    apply re_match_command_spec. left. by apply H. }
  unfold CommandHandler_init, CommandHandler_init_body.
  destruct cmds as [s|l]; simpl in *; rewrite Hv; simpl;
    destruct filters; simpl; eauto.
Qed.

(** Construction fails with [ValueError] when the check of the source
    refuses a lower-cased token. *)
Lemma CommandHandler_init_invalid cmds filters :
  forallb (fun x => re_match_command (lower x)) (as_list cmds) = false ->
  CommandHandler_init cmds filters = Raise ValueError.
Proof.
  intros H.
  assert (Hv : validate_commands (map lower (as_list cmds)) = Raise ValueError).
  { apply validate_commands_raise. by rewrite forallb_map_lower. }
  unfold CommandHandler_init, CommandHandler_init_body.
  destruct cmds as [s|l]; simpl in *; rewrite Hv; reflexivity.
Qed.

(** C4.  The specification: construction succeeds for every token whose
    lower-cased form matches [^[a-z0-9_]{1,32}$] and fails with a validation
    error for every other token.  The code departs from it on one family of
    tokens ([re_match_command_spec]): for the command [start] followed by
    a line feed, whose lower-cased form holds a character outside the
    class and so does not match the pattern, [CommandHandler.__init__]
    raises nothing and returns a handler listening to that very token. *)
Theorem C4_trailing_line_feed_accepted :
  spec_command_pattern (lower ("start" ++ newline)) = false
  /\ exists h, CommandHandler_init (Str ("start" ++ newline)) None = Ok h
               /\ command h = ["start" ++ newline].
Proof.
  split; [vm_compute; reflexivity|].
  eexists. split; vm_compute; reflexivity.
Qed.

(** ** check_update *)

Lemma split_on_from_cons sep tok s :
  exists x l, split_on_from sep tok s = x :: l.
Proof.
  revert tok. induction s as [|c s IH]; intros tok; simpl; [eauto|].
  destruct (Ascii.eqb c sep); eauto.
Qed.

(** The two subscripts of [command_parts] are in range. *)
Lemma command_parts_subscripts raw name :
  exists p0 p1,
    getitem (split_on "@" raw ++ [name])%list 0 = Ok p0
    /\ getitem (split_on "@" raw ++ [name])%list 1 = Ok p1.
Proof.
  unfold split_on. destruct (split_on_from_cons "@" "" raw) as (x & l & ->).
  destruct l as [|y l]; simpl; eauto.
Qed.

(** [CommandHandler.check_update] raises on no object. *)
Lemma CommandHandler_check_update_returns h update :
  raises (CommandHandler_check_update h update) = false.
Proof.
  unfold CommandHandler_check_update.
  destruct update as [u|]; [|done].
  destruct (effective_message u) as [m|]; [|done].
  destruct (entities m) as [|e0 es]; [done|]. simpl.
  match goal with |- context [if ?c then _ else _] => destruct c end; [|done].
  destruct (nonempty (text m)) as [txt|]; [|done].
  destruct (bot m) as [b|]; [|done].
  destruct (command_parts_subscripts (slice txt 1 (MessageEntity.length e0)) (username b))
    as (p0 & p1 & -> & ->). simpl.
  match goal with |- context [if ?c then _ else _] => destruct c end; [done|].
  match goal with |- context [if ?c then _ else _] => destruct c end; done.
Qed.

(** [PrefixHandler.check_update] raises exactly on a text that is not
    empty and holds no token. *)
Lemma PrefixHandler_check_update_raises h u :
  raises (PrefixHandler_check_update h (AnUpdate u)) = true <->
  exists m txt, effective_message u = Some m /\ text m = Some txt
                /\ txt <> "" /\ split txt = [].
Proof.
  unfold PrefixHandler_check_update, nonempty.
  destruct (effective_message u) as [m|]; [|split; [done|intros (?&?&?&_); done]].
  destruct (text m) as [txt|] eqn:Htxt;
    [|split; [done|intros (m' & txt' & Hm & Ht & _); congruence]].
  destruct (String.eqb_spec txt "") as [->|Hne]; simpl.
  { split; [done|]. intros (m' & txt' & Hm & Ht & Hne & _). congruence. }
  destruct (split txt) as [|t0 ts] eqn:Hs; simpl.
  - split; [|done]. intros _. exists m, txt. done.
  - split.
    + repeat match goal with |- context [if ?c then _ else _] => destruct c end; done.
    + intros (m' & txt' & Hm & Ht & _ & Hsp). congruence.
Qed.

Lemma CommandHandler_rejected_by_filter h u :
  CommandHandler_check_update h (AnUpdate u) = Ok Rejected ->
  truthy (filters h u) = false.
Proof.
  unfold CommandHandler_check_update.
  destruct (effective_message u) as [m|]; [|done].
  destruct (entities m) as [|e0 es]; [done|]. simpl.
  match goal with |- context [if ?c then _ else _] => destruct c end; [|done].
  destruct (nonempty (text m)) as [txt|]; [|done].
  destruct (bot m) as [b|]; [|done].
  destruct (command_parts_subscripts (slice txt 1 (MessageEntity.length e0)) (username b))
    as (p0 & p1 & -> & ->). simpl.
  match goal with |- context [if ?c then _ else _] => destruct c end; [done|].
  destruct (truthy (filters h u)); done.
Qed.

(** C1.  For the handler of the command [start] without a user filter and
    the bot named [mybot]: the update whose message text is
    [/start@mybot extra args], with a bot-command entity at offset 0 that
    covers [/start@mybot], is checked to the pair of the arguments
    [extra], [args] and a truthy filter result; the message
    [/start@otherbot] is checked to [None] (no match), which is not the
    value [False] of a match that the filter rejects. *)
Theorem C1_start_command_check :
  exists h,
    CommandHandler_init (Str "start") None = Ok h
    /\ CommandHandler_check_update h
         (AnUpdate (message_update (command_message "/start@mybot extra args" 12 "mybot")))
       = Ok (Matched ["extra"; "args"] (PBool true))
    /\ truthy (PBool true) = true
    /\ CommandHandler_check_update h
         (AnUpdate (message_update (command_message "/start@otherbot" 15 "mybot")))
       = Ok NoMatch
    /\ NoMatch <> Rejected.
Proof.
  eexists. split; [reflexivity|].
  split; [vm_compute; reflexivity|].
  split; [reflexivity|].
  split; [vm_compute; reflexivity|discriminate].
Qed.

(** C7.  The specification: [check_update] of both handlers never raises on
    a well-formed update, also when the text is not empty and holds white
    space only.  [CommandHandler.check_update] never raises
    ([CommandHandler_check_update_returns]), but on the text made of one
    space [PrefixHandler.check_update] raises [IndexError] where [None] is
    asked for: the text is truthy, its list of tokens is empty, and
    the code reads the first token. *)
Theorem C7_prefix_handler_raises_on_blank_text :
  exists h,
    PrefixHandler_init (Str "!") (Str "test") None = Ok h
    /\ PrefixHandler_check_update h (AnUpdate (message_update (text_message " ")))
       = Raise IndexError.
Proof. eexists. split; vm_compute; reflexivity. Qed.

(** ** PrefixHandler *)

Lemma nocommand_valid : validate_commands [lower "nocommand"] = Ok tt.
Proof. vm_compute. reflexivity. Qed.

Lemma triggers_lower ps cs :
  triggers (map lower ps) (map lower cs) = triggers ps cs.
Proof.
  unfold triggers. induction ps as [|p ps IH]; simpl; [done|].
  rewrite IH. f_equal. rewrite map_map. apply map_ext. intros c.
  by rewrite !lower_idem.
Qed.

Lemma triggers_ext ps ps' cs cs' :
  map lower ps = map lower ps' -> map lower cs = map lower cs' ->
  triggers ps cs = triggers ps' cs'.
Proof.
  intros Hp Hc. rewrite <- (triggers_lower ps cs), <- (triggers_lower ps' cs').
  by rewrite Hp, Hc.
Qed.

Lemma PrefixHandler_init_triggers prefix cmds filters :
  exists h, PrefixHandler_init prefix cmds filters = Ok h
            /\ triggers_of h (as_list prefix) (as_list cmds).
Proof.
  unfold PrefixHandler_init, CommandHandler_init_body.
  cbn [set_command get_command set_filters PrefixHandler_slots
       set_command_property _build_commands _command _prefix _commands ph_filters].
  rewrite nocommand_valid. cbn [mbind result_bind].
  destruct filters as [f|]; cbn [mret result_ret mbind result_bind];
    (eexists; split; [reflexivity|]);
    unfold triggers_of; cbn [set_command_property set_prefix _build_commands
                             _command _prefix _commands ph_filters];
    (split; [|split]);
    try (destruct prefix; cbn [as_list map]; by rewrite ?lower_idem);
    try (destruct cmds; cbn [as_list map]; by rewrite ?lower_idem);
    apply triggers_ext;
    try (destruct prefix; cbn [as_list map]; by rewrite ?lower_idem);
    try (destruct cmds; cbn [as_list map]; by rewrite ?lower_idem).
Qed.

Lemma set_prefix_triggers p h ps cs :
  triggers_of h ps cs -> triggers_of (set_prefix p h) (as_list p) cs.
Proof.
  intros (Hp & Hc & Ht). unfold triggers_of, set_prefix, _build_commands.
  cbn [_command _prefix _commands].
  assert (Hp' : map lower match p with Str s => [lower s] | Seq l => l end
                = map lower (as_list p)).
  { destruct p; cbn [as_list map]; by rewrite ?lower_idem. }
  split; [done|]. split; [done|]. by apply triggers_ext.
Qed.

Lemma set_command_triggers c h ps cs :
  triggers_of h ps cs -> triggers_of (set_command_property c h) ps (as_list c).
Proof.
  intros (Hp & Hc & Ht). unfold triggers_of, set_command_property, _build_commands.
  cbn [_command _prefix _commands].
  assert (Hc' : map lower match c with Str s => [lower s] | Seq l => l end
                = map lower (as_list c)).
  { destruct c; cbn [as_list map]; by rewrite ?lower_idem. }
  split; [done|]. split; [done|]. by apply triggers_ext.
Qed.

Lemma in_triggers t ps cs :
  In t (triggers ps cs) <->
  exists p c, In p ps /\ In c cs /\ t = lower p ++ lower c.
Proof.
  unfold triggers. rewrite in_flat_map. split.
  - intros (p & Hp & Ht). apply in_map_iff in Ht as (c & <- & Hc). eauto.
  - intros (p & c & Hp & Hc & ->). exists p. split; [done|].
    apply in_map_iff. eauto.
Qed.

Lemma str_in_In x l : str_in x l = true <-> In x l.
Proof.
  unfold str_in. rewrite existsb_exists. split.
  - intros (y & Hy & Heq). apply String.eqb_eq in Heq. by subst.
  - intros H. exists x. split; [done|]. apply String.eqb_refl.
Qed.

Lemma PrefixHandler_check_update_token h u m txt tok rest :
  effective_message u = Some m -> text m = Some txt -> split txt = tok :: rest ->
  PrefixHandler_check_update h (AnUpdate u)
  = Ok (if str_in (lower tok) (_commands h)
        then (if truthy (ph_filters h u) then Matched rest (ph_filters h u) else Rejected)
        else NoMatch).
Proof.
  intros Hm Ht Hs. unfold PrefixHandler_check_update, nonempty. rewrite Hm, Ht.
  destruct (String.eqb_spec txt "") as [->|Hne]; [done|]. simpl.
  rewrite Hs. simpl. destruct (str_in (lower tok) (_commands h)); simpl; [|done].
  destruct (truthy (ph_filters h u)); done.
Qed.

Lemma PrefixHandler_match_iff h u m txt :
  effective_message u = Some m -> text m = Some txt ->
  is_match (PrefixHandler_check_update h (AnUpdate u)) = true <->
  exists tok rest, split txt = tok :: rest /\ In (lower tok) (_commands h).
Proof.
  intros Hm Ht. destruct (split txt) as [|tok rest] eqn:Hs.
  - split; [|intros (?&?&?&_); done].
    unfold PrefixHandler_check_update, nonempty. rewrite Hm, Ht.
    destruct (String.eqb txt ""); simpl; [done|]. rewrite Hs. done.
  - rewrite (PrefixHandler_check_update_token h u m txt tok rest Hm Ht Hs).
    destruct (str_in (lower tok) (_commands h)) eqn:Hin.
    + apply str_in_In in Hin. split; [eauto|].
      intros _. destruct (truthy (ph_filters h u)); done.
    + split; [done|]. intros (tok' & rest' & [= <- <-] & Hin').
      apply str_in_In in Hin'. congruence.
Qed.

(** C3.  After construction and after every assignment to the properties
    [prefix] and [command], the triggers [_commands] of a prefix handler
    are the concatenations of a lower-cased current prefix and a
    lower-cased current command, over all pairs; [check_update] matches a
    text message exactly when its first token, lower-cased, is one of the
    current triggers, and then returns the remaining tokens with the
    filter result when that is truthy.  For the prefixes [!], [#] and
    the commands [test], [help] the triggers are [!test], [!help],
    [#test], [#help], and [!test a b] is checked to the arguments
    [a], [b] with a truthy filter result. *)
Theorem C3_prefix_handler_triggers :
  (forall prefix cmds filters,
     exists h, PrefixHandler_init prefix cmds filters = Ok h
               /\ triggers_of h (as_list prefix) (as_list cmds))
  /\ (forall h prefixes cmds,
        triggers_of h prefixes cmds ->
        (forall p, triggers_of (set_prefix p h) (as_list p) cmds)
        /\ (forall c, triggers_of (set_command_property c h) prefixes (as_list c))
        /\ _commands h = triggers (_prefix h) (_command h)
        /\ (forall t, In t (_commands h) <->
                      exists p c, In p prefixes /\ In c cmds /\ t = lower p ++ lower c))
  /\ (forall h u m txt,
        effective_message u = Some m -> text m = Some txt ->
        (is_match (PrefixHandler_check_update h (AnUpdate u)) = true <->
         exists tok rest, split txt = tok :: rest /\ In (lower tok) (_commands h))
        /\ (forall tok rest,
              split txt = tok :: rest -> In (lower tok) (_commands h) ->
              PrefixHandler_check_update h (AnUpdate u)
              = Ok (if truthy (ph_filters h u)
                    then Matched rest (ph_filters h u) else Rejected)))
  /\ (exists h,
        PrefixHandler_init (Seq ["!"; "#"]) (Seq ["test"; "help"]) None = Ok h
        /\ _commands h = ["!test"; "!help"; "#test"; "#help"]
        /\ PrefixHandler_check_update h (AnUpdate (message_update (text_message "!test a b")))
           = Ok (Matched ["a"; "b"] (PBool true))).
Proof.
  split; [apply PrefixHandler_init_triggers|].
  split.
  { intros h ps cs H. split; [intros p; by apply (set_prefix_triggers p h ps cs)|].
    split; [intros c; by apply (set_command_triggers c h ps cs)|].
    destruct H as (Hp & Hc & ->).
    split; [symmetry; by apply triggers_ext|].
    intros t. apply in_triggers. }
  split.
  { intros h u m txt Hm Ht. split; [by apply (PrefixHandler_match_iff h u m txt)|].
    intros tok rest Hs Hin.
    rewrite (PrefixHandler_check_update_token h u m txt tok rest Hm Ht Hs).
    apply str_in_In in Hin. by rewrite Hin. }
  eexists. split; [vm_compute; reflexivity|].
  split; vm_compute; reflexivity.
Qed.

(** Once [prefix] is reassigned from [!], [#] to [$], the stale trigger
    [!test] matches no more and the new trigger [$test] matches. *)
Lemma C3_prefix_handler_triggers_witness :
  exists h,
    PrefixHandler_init (Seq ["!"; "#"]) (Seq ["test"; "help"]) None = Ok h
    /\ triggers_of (set_prefix (Str "$") h) ["$"] ["test"; "help"]
    /\ is_match (PrefixHandler_check_update (set_prefix (Str "$") h)
                   (AnUpdate (message_update (text_message "!test a b")))) = false
    /\ is_match (PrefixHandler_check_update (set_prefix (Str "$") h)
                   (AnUpdate (message_update (text_message "$TEST a b")))) = true.
Proof.
  destruct C3_prefix_handler_triggers as (Hinit & Hset & Hcheck & _).
  destruct (Hinit (Seq ["!"; "#"]) (Seq ["test"; "help"]) None) as (h & Hh & Ht).
  exists h. split; [exact Hh|].
  split; [exact (proj1 (Hset h _ _ Ht) (Str "$"))|].
  injection Hh as <-.
  split; [vm_compute; reflexivity|].
  apply (proj1 (Hcheck _ (message_update (text_message "$TEST a b")) _ "$TEST a b"
                  eq_refl eq_refl)).
  exists "$TEST", ["a"; "b"]. split; [vm_compute; reflexivity|].
  vm_compute. auto.
Defined.

(** C9, as stated, fails: the token [no way!] does not match the pattern,
    and yet a prefix handler is constructed for it, and another such token
    is assigned to its property [command] afterwards. *)
Lemma C9_command_tokens_not_validated :
  spec_command_pattern (lower "no way!") = false
  /\ re_match_command (lower "no way!") = false
  /\ exists h,
       PrefixHandler_init (Str "!") (Str "no way!") None = Ok h
       /\ _command h = ["no way!"]
       /\ _command (set_command_property (Seq ["Still Wrong?"]) h) = ["Still Wrong?"].
Proof.
  split; [vm_compute; reflexivity|].
  split; [vm_compute; reflexivity|].
  eexists. split; [vm_compute; reflexivity|].
  split; vm_compute; reflexivity.
Qed.

(** C9, amended.  A prefix handler validates neither its commands nor its
    prefixes: for all prefixes, commands and filters construction succeeds
    and stores them as the setters normalize them; the setters never fail;
    and the check inherited from [CommandHandler.__init__] runs on the
    placeholder [nocommand] alone, which passes it. *)
Theorem C9_prefix_handler_validates_placeholder_only :
  (forall prefix cmds filters,
     exists h, PrefixHandler_init prefix cmds filters = Ok h
               /\ _prefix h = assigned prefix /\ _command h = assigned cmds)
  /\ (forall c h, _command (set_command_property c h) = assigned c
                  /\ _prefix (set_command_property c h) = _prefix h)
  /\ (forall p h, _prefix (set_prefix p h) = assigned p
                  /\ _command (set_prefix p h) = _command h)
  /\ (forall (self : PrefixHandler) filters,
        exists self', CommandHandler_init_body (Str "nocommand") filters self = Ok self'
                      /\ _command self' = ["nocommand"]).
Proof.
  split.
  { intros prefix cmds filters.
    unfold PrefixHandler_init, CommandHandler_init_body.
    cbn [set_command get_command set_filters PrefixHandler_slots
         set_command_property _build_commands _command _prefix _commands ph_filters].
    rewrite nocommand_valid. cbn [mbind result_bind].
    destruct filters as [f|]; cbn [mret result_ret mbind result_bind];
      (eexists; split; [reflexivity|]); split; reflexivity. }
  split; [intros c h; split; reflexivity|].
  split; [intros p h; split; reflexivity|].
  intros self filters. unfold CommandHandler_init_body.
  cbn [set_command get_command set_filters PrefixHandler_slots
       set_command_property _build_commands _command _prefix _commands ph_filters].
  rewrite nocommand_valid. cbn [mbind result_bind].
  destruct filters as [f|]; cbn [mret result_ret]; eexists; split; reflexivity.
Qed.

(** ** Mutators of the store *)

Lemma store_eta (s : DictPersistence) :
  {| _user_data := _user_data s; _chat_data := _chat_data s; _bot_data := _bot_data s;
     _callback_data := _callback_data s; _conversations := _conversations s;
     _user_data_json := _user_data_json s; _chat_data_json := _chat_data_json s;
     _bot_data_json := _bot_data_json s;
     _callback_data_json := _callback_data_json s;
     _conversations_json := _conversations_json s |} = s.
Proof. by destruct s. Qed.

Lemma set_user_data_same s : set_user_data (_user_data s) s = s.
Proof. apply store_eta. Qed.
Lemma set_chat_data_same s : set_chat_data (_chat_data s) s = s.
Proof. apply store_eta. Qed.
Lemma set_conversations_same s : set_conversations (_conversations s) s = s.
Proof. apply store_eta. Qed.

(** What the test of a mutator compares is the stored value, or [None]. *)
Lemma update_user_data_unfold user_id data s :
  update_user_data user_id data s =
  if py_eqb (compared_value (UpdateUserData user_id data) s) data
  then (Ok tt, set_user_data (Some (default ∅ (_user_data s))) s)
  else (Ok tt, set_user_data_json None
                 (set_user_data (Some (<[user_id := data]> (default ∅ (_user_data s)))) s)).
Proof.
  unfold update_user_data, compared_value, stored_value.
  destruct s as [ud cd bd cbd cv udj cdj bdj cbdj cvj]; simpl.
  destruct ud as [d|]; reflexivity.
Qed.

Lemma update_chat_data_unfold chat_id data s :
  update_chat_data chat_id data s =
  if py_eqb (compared_value (UpdateChatData chat_id data) s) data
  then (Ok tt, set_chat_data (Some (default ∅ (_chat_data s))) s)
  else (Ok tt, set_chat_data_json None
                 (set_chat_data (Some (<[chat_id := data]> (default ∅ (_chat_data s)))) s)).
Proof.
  unfold update_chat_data, compared_value, stored_value.
  destruct s as [ud cd bd cbd cv udj cdj bdj cbdj cvj]; simpl.
  destruct cd as [d|]; reflexivity.
Qed.

Lemma size_zero_empty (c : Conversations) : size c = 0%nat -> c = ∅.
Proof. apply map_size_empty_iff. Qed.

Lemma update_conversation_unfold name key new_state s :
  update_conversation name key new_state s =
  if py_eqb (compared_value (UpdateConversation name key new_state) s) new_state
  then (Ok tt, set_conversations (Some (with_handler name (_conversations s))) s)
  else (Ok tt, set_conversations_json None
                 (set_conversations
                    (Some (<[name := <[key := new_state]>
                                       (default ∅ (default ∅ (_conversations s) !! name))]>
                             (with_handler name (_conversations s)))) s)).
Proof.
  unfold update_conversation, compared_value, stored_value, with_handler.
  destruct s as [ud cd bd cbd cv udj cdj bdj cbdj cvj]; simpl.
  destruct cv as [c|]; simpl.
  - destruct (Nat.eqb_spec (size c) 0) as [Hz|Hz]; simpl.
    + apply size_zero_empty in Hz. subst c. reflexivity.
    + destruct (c !! name) as [st|]; reflexivity.
  - reflexivity.
Qed.

Lemma update_bot_data_unfold data s :
  update_bot_data data s =
  if py_eqb (compared_value (UpdateBotData data) s) data
  then (Ok tt, s)
  else (Ok tt, set_bot_data_json None (set_bot_data data s)).
Proof. reflexivity. Qed.

Lemma update_callback_data_unfold data s :
  update_callback_data data s =
  if py_eqb (compared_value (UpdateCallbackData data) s) (PTuple [fst data; snd data])
  then (Ok tt, s)
  else match copy (snd data) with
       | Ok d1 => (Ok tt, set_callback_data_json None
                            (set_callback_data (Some (fst data, d1)) s))
       | Raise e => (Raise e, s)
       end.
Proof.
  unfold update_callback_data, compared_value, stored_value, callback_value.
  destruct (_callback_data s) as [[a b]|]; reflexivity.
Qed.

(** *** Frame *)

Lemma run_siblings_unchanged m s : siblings_unchanged (affected m) s (snd (run m s)).
Proof.
  intros c' Hc'. destruct m as [uid d|cid d|d|d|n k st]; simpl in *.
  - rewrite update_user_data_unfold.
    destruct (py_eqb _ _); destruct c'; done.
  - rewrite update_chat_data_unfold.
    destruct (py_eqb _ _); destruct c'; done.
  - rewrite update_bot_data_unfold.
    destruct (py_eqb _ _); destruct c'; done.
  - rewrite update_callback_data_unfold.
    destruct (py_eqb _ _); [destruct c'; done|].
    destruct (copy (snd d)); destruct c'; done.
  - rewrite update_conversation_unfold.
    destruct (py_eqb _ _); destruct c'; done.
Qed.

(** *** No-op on an equal value *)

Lemma run_equal_noop m s v :
  stored_value m s = Some v -> py_eqb v (new_value m) = true ->
  run m s = (Ok tt, s).
Proof.
  intros Hv Heq. destruct m as [uid d|cid d|d|d|n k st]; simpl in *.
  - rewrite update_user_data_unfold. unfold compared_value. simpl. rewrite Hv. simpl.
    rewrite Heq. destruct (_user_data s) as [m|] eqn:Hm; [|done]. simpl.
    rewrite <- Hm. by rewrite set_user_data_same.
  - rewrite update_chat_data_unfold. unfold compared_value. simpl. rewrite Hv. simpl.
    rewrite Heq. destruct (_chat_data s) as [m|] eqn:Hm; [|done]. simpl.
    rewrite <- Hm. by rewrite set_chat_data_same.
  - rewrite update_bot_data_unfold. unfold compared_value. simpl.
    injection Hv as ->. by rewrite Heq.
  - rewrite update_callback_data_unfold. unfold compared_value. simpl. rewrite Hv. simpl.
    by rewrite Heq.
  - rewrite update_conversation_unfold. unfold compared_value. simpl. rewrite Hv. simpl.
    rewrite Heq. destruct (_conversations s) as [c|] eqn:Hc; [|done]. simpl in Hv.
    unfold with_handler. simpl.
    destruct (c !! n) as [i|] eqn:Hn; [|done].
    rewrite <- Hc. by rewrite set_conversations_same.
Qed.

(** *** Invalidation on a change *)

Lemma copy_same v d1 : copy v = Ok d1 -> d1 = v.
Proof. destruct v; simpl; congruence. Qed.

Lemma run_changed_invalidates m s :
  py_eqb (compared_value m s) (new_value m) = false ->
  fst (run m s) = Ok tt ->
  cache_of (affected m) (snd (run m s)) = None
  /\ stored_value m (snd (run m s)) = Some (new_value m).
Proof.
  intros Hne Hok. destruct m as [uid d|cid d|d|d|n k st]; simpl in *.
  - rewrite update_user_data_unfold, Hne. simpl. by rewrite lookup_insert_eq.
  - rewrite update_chat_data_unfold, Hne. simpl. by rewrite lookup_insert_eq.
  - rewrite update_bot_data_unfold, Hne. done.
  - rewrite update_callback_data_unfold, Hne in *.
    destruct (copy (snd d)) as [d1|e] eqn:Hcopy; [|done]. simpl.
    by rewrite (copy_same _ _ Hcopy).
  - rewrite update_conversation_unfold, Hne. simpl.
    rewrite lookup_insert_eq. simpl. by rewrite lookup_insert_eq.
Qed.

Lemma with_handler_states (name : string) (convs : option Conversations) (k : list Z) :
  (with_handler name convs !! name ≫= fun states => states !! k)
  = (convs ≫= fun c => c !! name ≫= fun states => states !! k).
Proof.
  unfold with_handler, default.
  destruct convs as [c|]; cbn [from_option id mbind option_bind].
  - destruct (c !! name) eqn:Hc; cbn [mbind option_bind]; [by rewrite Hc|].
    rewrite (lookup_insert_eq c name). apply lookup_empty.
  - rewrite (lookup_empty (M := gmap string) name).
    rewrite (lookup_insert_eq (∅ : Conversations) name). apply lookup_empty.
Qed.

Lemma with_handler_is_Some (name : string) (convs : option Conversations) :
  is_Some (with_handler name convs !! name).
Proof.
  unfold with_handler, default.
  destruct convs as [c|]; cbn [from_option id].
  - destruct (c !! name) eqn:Hc; [by rewrite Hc|].
    rewrite (lookup_insert_eq c name). eauto.
  - rewrite (lookup_empty (M := gmap string) name).
    rewrite (lookup_insert_eq (∅ : Conversations) name). eauto.
Qed.

Lemma with_handler_created (name : string) (convs : Conversations) :
  is_Some (convs !! name) -> with_handler name (Some convs) = convs.
Proof. intros [st H]. unfold with_handler. cbn. by rewrite H. Qed.

(** *** A repeated call *)

(** Where the collection exists, a call that finds its value stored
    changes nothing. *)
Lemma run_created_equal m s :
  created m s -> py_eqb (compared_value m s) (new_value m) = true ->
  run m s = (Ok tt, s).
Proof.
  intros Hc Heq. destruct m as [uid d|cid d|d|d|n k st]; cbn [run created new_value] in *.
  - rewrite update_user_data_unfold, Heq. destruct Hc as [m Hm]. rewrite Hm. cbn.
    rewrite <- Hm. by rewrite set_user_data_same.
  - rewrite update_chat_data_unfold, Heq. destruct Hc as [m Hm]. rewrite Hm. cbn.
    rewrite <- Hm. by rewrite set_chat_data_same.
  - by rewrite update_bot_data_unfold, Heq.
  - by rewrite update_callback_data_unfold, Heq.
  - rewrite update_conversation_unfold, Heq. destruct Hc as (c & Hc & Hn).
    rewrite Hc, (with_handler_created n c Hn). rewrite <- Hc.
    by rewrite set_conversations_same.
Qed.

Lemma run_creates m s cache :
  fst (run m s) = Ok tt -> created m (set_cache (affected m) cache (snd (run m s))).
Proof.
  intros Hok. destruct m as [uid d|cid d|d|d|n k st]; cbn [run created affected] in *;
    try done.
  - rewrite update_user_data_unfold. destruct (py_eqb _ _); cbn; eauto.
  - rewrite update_chat_data_unfold. destruct (py_eqb _ _); cbn; eauto.
  - rewrite update_conversation_unfold. destruct (py_eqb _ _); cbn.
    + eexists. split; [reflexivity|]. apply with_handler_is_Some.
    + eexists. split; [reflexivity|].
      rewrite (lookup_insert_eq (with_handler n (_conversations s)) n). eauto.
Qed.

Lemma compared_after_run m s cache :
  fst (run m s) = Ok tt ->
  compared_value m (set_cache (affected m) cache (snd (run m s)))
  = if py_eqb (compared_value m s) (new_value m) then compared_value m s
    else new_value m.
Proof.
  intros Hok. destruct m as [uid d|cid d|d|d|n k st]; cbn [run affected new_value] in *.
  - rewrite update_user_data_unfold.
    destruct (py_eqb (compared_value (UpdateUserData uid d) s) d);
      unfold compared_value; cbn.
    + destruct (_user_data s); cbn; [done|]. by rewrite lookup_empty.
    + by rewrite lookup_insert_eq.
  - rewrite update_chat_data_unfold.
    destruct (py_eqb (compared_value (UpdateChatData cid d) s) d);
      unfold compared_value; cbn.
    + destruct (_chat_data s); cbn; [done|]. by rewrite lookup_empty.
    + by rewrite lookup_insert_eq.
  - rewrite update_bot_data_unfold.
    by destruct (py_eqb (compared_value (UpdateBotData d) s) d).
  - rewrite update_callback_data_unfold in *.
    destruct (py_eqb (compared_value (UpdateCallbackData d) s) (PTuple [d.1; d.2]));
      [done|].
    destruct (copy (snd d)) as [d1|e] eqn:Hcopy; [|done].
    unfold compared_value. cbn. by rewrite (copy_same _ _ Hcopy).
  - rewrite update_conversation_unfold.
    destruct (py_eqb (compared_value (UpdateConversation n k st) s) st);
      unfold compared_value, stored_value;
      cbn [snd set_cache set_conversations_json set_conversations _conversations
           mbind option_bind].
    + by rewrite with_handler_states.
    + rewrite (lookup_insert_eq (with_handler n (_conversations s)) n).
      cbn [mbind option_bind]. by rewrite lookup_insert_eq.
Qed.

(** A call repeated at once, also with the cache filled in between, changes
    nothing, provided the new value is equal to itself. *)
Lemma run_twice m s cache :
  py_eqb (new_value m) (new_value m) = true ->
  fst (run m s) = Ok tt ->
  run m (set_cache (affected m) cache (snd (run m s)))
  = (Ok tt, set_cache (affected m) cache (snd (run m s))).
Proof.
  intros Hrefl Hok. apply run_created_equal; [by apply run_creates|].
  rewrite (compared_after_run m s cache Hok).
  by destruct (py_eqb (compared_value m s) (new_value m)) eqn:Heq.
Qed.

(** The four mutators that do not work on conversations invalidate the
    cache whenever they change their collection. *)
Lemma run_change_invalidates m s :
  affected m <> ConversationsData -> caches_backed s ->
  ~ same_collection (affected m) s (snd (run m s)) ->
  cache_of (affected m) (snd (run m s)) = None.
Proof.
  intros Hm [Hu Hc] Hch. destruct m as [uid d|cid d|d|d|n k st]; simpl in *.
  - rewrite update_user_data_unfold in *.
    destruct (py_eqb _ _); [|done]. simpl in *.
    destruct (_user_data s) as [m|]; [done|]. by apply Hu.
  - rewrite update_chat_data_unfold in *.
    destruct (py_eqb _ _); [|done]. simpl in *.
    destruct (_chat_data s) as [m|]; [done|]. by apply Hc.
  - rewrite update_bot_data_unfold in *.
    destruct (py_eqb _ _); [|done]. done.
  - rewrite update_callback_data_unfold in *.
    destruct (py_eqb _ _); [done|].
    destruct (copy (snd d)); done.
  - done.
Qed.

(** [update_conversation] either nulls the cache or leaves the conversations
    as they were, up to their creation and that of the empty dictionary of
    the handler. *)
Lemma update_conversation_cache name key new_state s :
  let s' := snd (update_conversation name key new_state s) in
  _conversations_json s' = None
  \/ (_conversations s' = Some (with_handler name (_conversations s))
      /\ _conversations_json s' = _conversations_json s).
Proof.
  cbn zeta. rewrite update_conversation_unfold.
  destruct (py_eqb (compared_value (UpdateConversation name key new_state) s) new_state);
    [right|left]; done.
Qed.

(** C2.  The specification: a mutator call that changes the stored collection
    in any way nulls the cache of that collection.  [update_conversation] departs
    from it: on the store constructed from the conversations text [{}],
    the call for the handler [h], the key [(1, 2)] and the state [None]
    adds the empty dictionary of the handler to the collection and returns
    before the invalidation, so that the cache keeps the text [{}],
    which the getter goes on returning, while the live collection
    serializes to another text. *)
Theorem C2_update_conversation_keeps_stale_cache :
  exists s0 s1,
    DictPersistence_init (json := StdJson.json) "" "" "" "{}" "" = Ok s0
    /\ update_conversation "h" [1; 2] PNone s0 = (Ok tt, s1)
    /\ _conversations s0 = Some ∅
    /\ _conversations s1 = Some {[ "h" := ∅ ]}
    /\ _conversations s1 <> _conversations s0
    /\ _conversations_json s1 = Some "{}"
    /\ serialize (json := StdJson.json) ConversationsData s1
       = Ok ("{" ++ StdJson.quoted "h" ++ ": {}}")
    /\ fst (conversations_json (json := StdJson.json) s1) = Ok "{}".
Proof.
  eexists. eexists.
  split; [vm_compute; reflexivity|].
  split; [vm_compute; reflexivity|].
  split; [reflexivity|].
  split; [vm_compute; reflexivity|].
  split.
  { intros H.
    apply (f_equal (fun o : option Conversations => default ∅ o !! "h")) in H.
    vm_compute in H. discriminate. }
  split; [reflexivity|].
  split; vm_compute; reflexivity.
Qed.

(** C5.  The specification: a call of a mutator with a value equal to the
    stored one is a no-op, and a call that changes the collection nulls the
    cache of that collection and of no other.  The two halves leave one call
    out, and there the code departs from both: on the store constructed from
    the conversations text [{}], [update_conversation] for the handler [h],
    the key [(1, 2)] and the state [None] finds no value under the key, so
    that [.get] gives [None], equal to the new state; the call is taken for
    a call with an equal value and returns early, after [setdefault] has
    added the empty dictionary of the handler.  The collection has changed
    and its cache is kept.  The same call with another state nulls the
    cache, the siblings are left as they are, and the example of the
    specification, [update_bot_data] twice with the dictionary of the key
    [x] and the value 1, goes as the specification says, from a cache that
    holds a text: the first call nulls it, the second changes nothing, also
    when the cache was filled again in between. *)
Theorem C5_equal_to_missing_value_changes_collection :
  let call := UpdateConversation "h" [1; 2] PNone in
  let data := PDict [(PStr "x", PInt 1)] in
  exists s0 s1 sb,
    DictPersistence_init (json := StdJson.json) "" "" "" "{}" "" = Ok s0
    /\ stored_value call s0 = None
    /\ py_eqb (compared_value call s0) (new_value call) = true
    /\ run call s0 = (Ok tt, s1)
    /\ ~ same_collection ConversationsData s0 s1
    /\ cache_of ConversationsData s0 = Some "{}"
    /\ cache_of ConversationsData s1 = Some "{}"
    /\ siblings_unchanged ConversationsData s0 s1
    /\ cache_of ConversationsData
         (snd (run (UpdateConversation "h" [1; 2] (PStr "STATE")) s0)) = None
    /\ DictPersistence_init (json := StdJson.json) "" "" "{}" "" "" = Ok sb
    /\ cache_of BotData sb = Some "{}"
    /\ cache_of BotData (snd (update_bot_data data sb)) = None
    /\ update_bot_data data (snd (update_bot_data data sb))
       = (Ok tt, snd (update_bot_data data sb))
    /\ update_bot_data data
         (set_bot_data_json (Some "filled") (snd (update_bot_data data sb)))
       = (Ok tt, set_bot_data_json (Some "filled") (snd (update_bot_data data sb))).
Proof.
  intros call data. eexists. eexists. eexists.
  split; [vm_compute; reflexivity|].
  split; [reflexivity|].
  split; [reflexivity|].
  split; [vm_compute; reflexivity|].
  split.
  { cbn [same_collection]. intros H.
    apply (f_equal (fun o : option Conversations => default ∅ o !! "h")) in H.
    vm_compute in H. discriminate. }
  split; [reflexivity|].
  split; [reflexivity|].
  split.
  { intros c Hc. destruct c; try done; split; reflexivity. }
  split; [reflexivity|].
  split; [vm_compute; reflexivity|].
  split; [reflexivity|].
  split; [reflexivity|].
  split; vm_compute; reflexivity.
Qed.

(** ** The properties that serialize *)

Section Reachable.
Context {json : JsonModule}.

Lemma json_property_store c s : snd (json_property c s) = s.
Proof.
  destruct c; simpl;
    [unfold user_data_json|unfold chat_data_json|unfold bot_data_json
    |unfold callback_data_json|unfold conversations_json];
    destruct (nonempty _); reflexivity.
Qed.

Lemma nonempty_Some c str : c = Some str -> str <> "" -> nonempty c = Some str.
Proof.
  intros -> Hne. unfold nonempty. by destruct (String.eqb_spec str "").
Qed.

Lemma json_property_hit c s str :
  cache_of c s = Some str -> str <> "" -> json_property c s = (Ok str, s).
Proof.
  intros Hc Hne. destruct c; simpl in *;
    [unfold user_data_json|unfold chat_data_json|unfold bot_data_json
    |unfold callback_data_json|unfold conversations_json];
    by rewrite (nonempty_Some _ _ Hc Hne).
Qed.

Lemma json_property_miss c s :
  cache_of c s = None -> json_property c s = (serialize c s, s).
Proof.
  intros Hc. destruct c; simpl in *;
    [unfold user_data_json|unfold chat_data_json|unfold bot_data_json
    |unfold callback_data_json|unfold conversations_json];
    by rewrite Hc.
Qed.

Lemma init_caches a b c d e s :
  DictPersistence_init a b c d e = Ok s -> caches_nonempty s /\ caches_backed s.
Proof.
  unfold DictPersistence_init, caches_nonempty, caches_backed.
  destruct (String.eqb_spec a "") as [->|Ha];
    [|destruct (except_as_TypeError (_decode_user_chat_data_from_json a)); [|done]];
  (destruct (String.eqb_spec b "") as [->|Hb];
    [|destruct (except_as_TypeError (_decode_user_chat_data_from_json b)); [|done]]);
  (destruct (String.eqb_spec c "") as [->|Hc];
    [|destruct (except_as_TypeError (loads c)) as [[]|]; try done]);
  (destruct (String.eqb_spec e "") as [->|He];
    [|destruct (except_as_TypeError (loads e)) as [data|]; [|done];
      simpl; destruct (decode_callback_data data); [|done]]);
  (destruct (String.eqb_spec d "") as [->|Hd];
    [|simpl; destruct (except_as_TypeError (_decode_conversations_from_json d)); [|done]]);
  simpl; intros [= <-]; simpl; repeat split; congruence.
Qed.

Lemma run_caches m s :
  caches_nonempty s /\ caches_backed s ->
  caches_nonempty (snd (run m s)) /\ caches_backed (snd (run m s)).
Proof.
  unfold caches_nonempty, caches_backed.
  intros [(H1 & H2 & H3 & H4 & H5) (B1 & B2)].
  destruct m as [uid d|cid d|d|d|n k st]; simpl.
  - rewrite update_user_data_unfold. destruct (py_eqb _ _); simpl;
      repeat split; try done.
  - rewrite update_chat_data_unfold. destruct (py_eqb _ _); simpl;
      repeat split; try done.
  - rewrite update_bot_data_unfold. destruct (py_eqb _ _); simpl;
      repeat split; done.
  - rewrite update_callback_data_unfold. destruct (py_eqb _ _); simpl;
      [repeat split; done|].
    destruct (copy (snd d)); simpl; repeat split; done.
  - rewrite update_conversation_unfold. destruct (py_eqb _ _); simpl;
      repeat split; done.
Qed.

Lemma reachable_caches s : reachable s -> caches_nonempty s /\ caches_backed s.
Proof.
  induction 1 as [a b c d e s Hs|m s _ IH|s _ IH|s _ IH|s _ IH|s _ IH|n s _ IH|c s _ IH].
  - by apply (init_caches a b c d e).
  - by apply run_caches.
  - unfold get_user_data. destruct (_user_data s) eqn:Hu; simpl; [done|].
    destruct IH as [? [B1 B2]]. split; [done|]. split; [done|exact B2].
  - unfold get_chat_data. destruct (_chat_data s) eqn:Hu; simpl; [done|].
    destruct IH as [? [B1 B2]]. split; [done|]. split; [exact B1|done].
  - unfold get_bot_data. destruct (_bot_data s); done.
  - unfold get_callback_data. destruct (_callback_data s) as [[x y]|]; [|done].
    destruct (copy y); done.
  - unfold get_conversations. destruct (_conversations s); done.
  - by rewrite json_property_store.
Qed.

(** C8.  On every store that the constructor and the methods produce, each of
    the five properties that serialize returns the cached string as it is
    when the cache slot holds one, and otherwise serializes the live
    collection and returns the result without storing it (the slot is
    still empty afterwards, and a second read serializes again); no such
    getter changes any slot of the store. *)
Theorem C8_json_property_read_only (c : Collection) (s : DictPersistence) :
  reachable s ->
  (forall str, cache_of c s = Some str -> json_property c s = (Ok str, s))
  /\ (cache_of c s = None ->
      json_property c s = (serialize c s, s)
      /\ cache_of c (snd (json_property c s)) = None
      /\ json_property c (snd (json_property c s)) = (serialize c s, s))
  /\ (forall c', snd (json_property c' s) = s).
Proof.
  intros [(H1 & H2 & H3 & H4 & H5) _]%reachable_caches.
  split.
  { intros str Hc. apply json_property_hit; [done|].
    intros ->. destruct c; simpl in Hc; congruence. }
  split; [|intros c'; apply json_property_store].
  intros Hc. rewrite json_property_store. rewrite (json_property_miss c s Hc). done.
Qed.

(** C10.  On the store constructed with all five inputs empty, for a json
    module that writes [None] as the text [null]: reading
    [conversations_json] raises (the encoder calls [.items()] on [None]),
    while [user_data_json], [chat_data_json], [bot_data_json] and
    [callback_data_json] return the string [null]. *)
Theorem C10_fresh_store_serialization :
  dumps PNone = Ok "null" ->
  exists s,
    DictPersistence_init "" "" "" "" "" = Ok s
    /\ fst (conversations_json s) = Raise AttributeError
    /\ fst (user_data_json s) = Ok "null"
    /\ fst (chat_data_json s) = Ok "null"
    /\ fst (bot_data_json s) = Ok "null"
    /\ fst (callback_data_json s) = Ok "null".
Proof.
  intros Hnull. exists DictPersistence_new.
  split; [reflexivity|]. split; [reflexivity|].
  unfold user_data_json, chat_data_json, bot_data_json, callback_data_json. simpl.
  by rewrite Hnull.
Qed.
End Reachable.

(** On the store constructed from the bot data text [{}]: the cached text is
    returned for the bot data, and the user data, never created and
    without cache, are serialized at each read. *)
Lemma C8_json_property_read_only_witness :
  exists s,
    DictPersistence_init (json := StdJson.json) "" "" "{}" "" "" = Ok s
    /\ json_property (json := StdJson.json) BotData s = (Ok "{}", s)
    /\ json_property (json := StdJson.json) UserData s = (Ok "null", s)
    /\ json_property (json := StdJson.json) UserData
         (snd (json_property (json := StdJson.json) UserData s)) = (Ok "null", s).
Proof.
  eexists. split; [vm_compute; reflexivity|].
  match goal with |- json_property BotData ?s = _ /\ _ =>
    assert (Hs : DictPersistence_init (json := StdJson.json) "" "" "{}" "" "" = Ok s)
      by (vm_compute; reflexivity);
    pose proof (C8_json_property_read_only (json := StdJson.json) BotData s
                  (reach_init "" "" "{}" "" "" s Hs)) as (Hhit & _);
    pose proof (C8_json_property_read_only (json := StdJson.json) UserData s
                  (reach_init "" "" "{}" "" "" s Hs)) as (_ & Hmiss & _)
  end.
  split; [apply Hhit; reflexivity|].
  destruct (Hmiss eq_refl) as (Hm1 & _ & Hm2).
  split; [exact Hm1|exact Hm2].
Defined.

(** The same with the json module of the model. *)
Lemma C10_fresh_store_serialization_witness :
  exists s,
    DictPersistence_init (json := StdJson.json) "" "" "" "" "" = Ok s
    /\ fst (conversations_json (json := StdJson.json) s) = Raise AttributeError
    /\ fst (user_data_json (json := StdJson.json) s) = Ok "null"
    /\ fst (chat_data_json (json := StdJson.json) s) = Ok "null"
    /\ fst (bot_data_json (json := StdJson.json) s) = Ok "null"
    /\ fst (callback_data_json (json := StdJson.json) s) = Ok "null".
Proof. apply (C10_fresh_store_serialization (json := StdJson.json)). reflexivity. Defined.

(** ** The round trip of conversations *)

Section RoundTrip.
Context {json : JsonModule}.

Lemma key_round_trips_text k :
  key_round_trips k ->
  dumps (PTuple (map PInt k)) = Ok (key_text k)
  /\ (loads (key_text k) ≫= tuple) ≫= int_tuple = Ok k.
Proof.
  intros (ks & kv & Hd & Hl & Ht). unfold key_text. rewrite Hd. split; [done|].
  rewrite Hl. exact Ht.
Qed.

Lemma key_text_inj k k' :
  key_round_trips k -> key_round_trips k' -> key_text k = key_text k' -> k = k'.
Proof.
  intros [_ H]%key_round_trips_text [_ H']%key_round_trips_text Heq.
  rewrite Heq in H. congruence.
Qed.

Lemma dict_set_fresh k v d :
  Forall (fun x => py_eqb x.1 k = false) d -> dict_set k v d = (d ++ [(k, v)])%list.
Proof.
  induction 1 as [|[k' v'] d Hk _ IH]; simpl in *; [done|].
  by rewrite Hk, IH.
Qed.

Lemma py_eqb_str a b : py_eqb (PStr a) (PStr b) = String.eqb a b.
Proof. reflexivity. Qed.

Lemma encode_states_enc (l : list (list Z * pyval)) acc :
  NoDup l.*1 ->
  Forall (fun kv => key_round_trips kv.1) l ->
  Forall (fun x => exists k, x.1 = PStr (key_text k) /\ key_round_trips k /\ k ∉ l.*1) acc ->
  encode_states l acc = Ok (acc ++ map enc_item l)%list.
Proof.
  revert acc. induction l as [|[k v] l IH]; intros acc Hnd Hl Hacc; simpl.
  { by rewrite app_nil_r. }
  apply NoDup_cons in Hnd as [Hk Hnd]. apply Forall_cons in Hl as [Hkr Hl].
  simpl in Hkr. destruct (key_round_trips_text k Hkr) as [Hd _].
  rewrite Hd. simpl.
  rewrite dict_set_fresh.
  - rewrite IH; [by rewrite <- app_assoc|done|done|].
    apply Forall_app. split.
    + eapply Forall_impl; [exact Hacc|]. intros x (k' & Hx & Hk' & Hnin).
      exists k'. split; [done|]. split; [done|].
      intros Hin. apply Hnin. simpl. by right.
    + apply Forall_singleton. exists k. simpl. done.
  - eapply Forall_impl; [exact Hacc|]. intros x (k' & Hx & Hk' & Hnin).
    rewrite Hx, py_eqb_str. apply String.eqb_neq. intros Heq.
    apply key_text_inj in Heq; [|done|done]. subst k'.
    apply Hnin. simpl. by left.
Qed.

Lemma decode_states_enc (l : list (list Z * pyval)) (acc : ConversationDict) :
  NoDup l.*1 ->
  Forall (fun kv => key_round_trips kv.1) l ->
  decode_states (map enc_item l) acc = Ok (list_to_map l ∪ acc).
Proof.
  revert acc. induction l as [|[k v] l IH]; intros acc Hnd Hl; simpl.
  { by rewrite (left_id_L ∅ (∪)). }
  apply NoDup_cons in Hnd as [Hk Hnd]. apply Forall_cons in Hl as [Hkr Hl].
  simpl in Hkr. destruct (key_round_trips_text k Hkr) as [_ Hr].
  unfold mbind, result_bind in *.
  destruct (loads (key_text k)) as [kv|]; [|done].
  destruct (tuple kv) as [t|]; [|done]. rewrite Hr.
  rewrite IH by done. f_equal.
  rewrite <- insert_union_r; [by rewrite insert_union_l|].
  by apply not_elem_of_list_to_map_1.
Qed.

Lemma states_round_trip_list st :
  states_round_trip st -> Forall (fun kv => key_round_trips kv.1) (map_to_list st).
Proof.
  intros H. apply Forall_forall. intros [k v] Hin. simpl.
  apply elem_of_map_to_list in Hin. eauto.
Qed.

Lemma encode_states_map st :
  states_round_trip st ->
  encode_states (map_to_list st) [] = Ok (map enc_item (map_to_list st)).
Proof.
  intros H. rewrite encode_states_enc; [done| |by apply states_round_trip_list|done].
  apply NoDup_fst_map_to_list.
Qed.

Lemma decode_states_map st :
  states_round_trip st ->
  decode_states (map enc_item (map_to_list st)) ∅ = Ok st.
Proof.
  intros H. rewrite decode_states_enc;
    [|apply NoDup_fst_map_to_list|by apply states_round_trip_list].
  by rewrite (right_id_L ∅ (∪)), list_to_map_to_list.
Qed.

Lemma encode_handlers_enc (l : list (string * ConversationDict)) acc :
  NoDup l.*1 ->
  Forall (fun hs => states_round_trip hs.2) l ->
  Forall (fun x => exists h, x.1 = PStr h /\ h ∉ l.*1) acc ->
  encode_handlers l acc = Ok (acc ++ map enc_handler l)%list.
Proof.
  revert acc. induction l as [|[h st] l IH]; intros acc Hnd Hl Hacc; simpl.
  { by rewrite app_nil_r. }
  apply NoDup_cons in Hnd as [Hh Hnd]. apply Forall_cons in Hl as [Hst Hl].
  simpl in Hst. rewrite (encode_states_map st Hst). simpl.
  rewrite dict_set_fresh.
  - rewrite IH; [by rewrite <- app_assoc|done|done|].
    apply Forall_app. split.
    + eapply Forall_impl; [exact Hacc|]. intros x (h' & Hx & Hnin).
      exists h'. split; [done|].
      intros Hin. apply Hnin. simpl. by right.
    + apply Forall_singleton. exists h. done.
  - eapply Forall_impl; [exact Hacc|]. intros x (h' & Hx & Hnin).
    rewrite Hx, py_eqb_str. apply String.eqb_neq. intros ->.
    apply Hnin. simpl. by left.
Qed.

Lemma decode_handlers_enc (l : list (string * ConversationDict)) (acc : Conversations) :
  NoDup l.*1 ->
  Forall (fun hs => states_round_trip hs.2) l ->
  decode_handlers (map enc_handler l) acc = Ok (list_to_map l ∪ acc).
Proof.
  revert acc. induction l as [|[h st] l IH]; intros acc Hnd Hl; simpl.
  { by rewrite (left_id_L ∅ (∪)). }
  apply NoDup_cons in Hnd as [Hh Hnd]. apply Forall_cons in Hl as [Hst Hl].
  simpl in Hst. rewrite (decode_states_map st Hst). simpl.
  rewrite IH by done. f_equal.
  rewrite <- insert_union_r; [by rewrite insert_union_l|].
  by apply not_elem_of_list_to_map_1.
Qed.

Lemma keys_round_trip_list convs :
  keys_round_trip convs -> Forall (fun hs => states_round_trip hs.2) (map_to_list convs).
Proof.
  intros H. apply Forall_forall. intros [h st] Hin. simpl.
  apply elem_of_map_to_list in Hin. intros k v Hk. eauto.
Qed.

Lemma encode_conversations_document convs :
  keys_round_trip convs ->
  _encode_conversations_to_json (Some convs) = dumps (document convs).
Proof.
  intros H. unfold _encode_conversations_to_json.
  rewrite encode_handlers_enc; [done| |by apply keys_round_trip_list|done].
  apply NoDup_fst_map_to_list.
Qed.

Lemma decode_conversations_document convs j :
  keys_round_trip convs ->
  loads j = Ok (document convs) ->
  _decode_conversations_from_json j = Ok convs.
Proof.
  intros H Hl. unfold _decode_conversations_from_json. rewrite Hl. simpl.
  rewrite decode_handlers_enc;
    [|apply NoDup_fst_map_to_list|by apply keys_round_trip_list].
  by rewrite (right_id_L ∅ (∪)), list_to_map_to_list.
Qed.

End RoundTrip.

(** C6, as stated, fails for the state [None]: on a fresh store
    [update_conversation] for the handler [h] and the key [(1, 2)] finds
    [None] under the missing key, equal to the new state, and returns
    without storing it; the store rebuilt from [conversations_json] gives
    the empty dictionary for the handler, not the dictionary that maps the
    key to [None]. *)
Lemma C6_null_state_is_not_stored :
  exists s1 j s2,
    update_conversation "h" [1; 2] PNone DictPersistence_new = (Ok tt, s1)
    /\ fst (conversations_json (json := StdJson.json) s1) = Ok j
    /\ DictPersistence_init (json := StdJson.json) "" "" "" j "" = Ok s2
    /\ fst (get_conversations "h" s2) = Ok ∅
    /\ (∅ : ConversationDict) <> {[ [1; 2] := PNone ]}.
Proof.
  eexists. eexists. eexists.
  split; [vm_compute; reflexivity|].
  split; [vm_compute; reflexivity|].
  split; [vm_compute; reflexivity|].
  split; [vm_compute; reflexivity|].
  intros H. apply (f_equal (fun m : ConversationDict => m !! [1; 2])) in H.
  vm_compute in H. discriminate.
Qed.

Section ConversationRoundTrip.
Context {json : JsonModule}.

(** C6, amended.  Take a handler name, a key and a state that differs ([==])
    from what the store holds under the key ([None] when it holds
    nothing), and let the json module write every key of the updated
    collection and read it back as the same tuple, and write the
    collection as a text, not empty, that it reads back as the same
    dictionary (so with states that it reads back unchanged).  Then after
    [update_conversation], reading [conversations_json] gives that text,
    the store constructed from it holds the same conversations, and its
    [get_conversations] for the handler maps the key to the state; when the
    store held nothing for the handler, it is the dictionary of that one
    key. *)
Theorem C6_conversation_round_trip
    (s0 : DictPersistence) (name : string) (key : list Z) (state : pyval)
    (convs : Conversations) (j : string) :
  py_eqb (compared_value (UpdateConversation name key state) s0) state = false ->
  _conversations (snd (update_conversation name key state s0)) = Some convs ->
  keys_round_trip convs ->
  dumps (document convs) = Ok j ->
  j <> "" ->
  loads j = Ok (document convs) ->
  let s1 := snd (update_conversation name key state s0) in
  fst (conversations_json s1) = Ok j
  /\ exists s2 states,
       DictPersistence_init "" "" "" j "" = Ok s2
       /\ _conversations s2 = Some convs
       /\ fst (get_conversations name s2) = Ok states
       /\ states !! key = Some state
       /\ (default ∅ (_conversations s0) !! name = None -> states = {[ key := state ]}).
Proof.
  intros Hne Hconvs Hkeys Hd Hj Hl s1. subst s1.
  rewrite update_conversation_unfold, Hne in *.
  cbn [snd set_conversations_json set_conversations _conversations] in Hconvs.
  injection Hconvs as Hconvs. cbn [snd].
  split.
  { match goal with |- fst (conversations_json ?s) = _ =>
      change (conversations_json s) with (json_property ConversationsData s);
      rewrite (json_property_miss ConversationsData s eq_refl)
    end.
    cbn [fst serialize set_conversations_json set_conversations _conversations].
    rewrite Hconvs. by rewrite (encode_conversations_document convs Hkeys). }
  unfold DictPersistence_init. cbn [String.eqb mbind result_bind].
  destruct (String.eqb_spec j "") as [|_]; [done|].
  rewrite (decode_conversations_document convs j Hkeys Hl).
  cbn [except_as_TypeError mbind result_bind].
  eexists. eexists. split; [reflexivity|]. split; [reflexivity|].
  unfold get_conversations.
  cbn [set_conversations_json set_conversations _conversations fst].
  split; [reflexivity|].
  rewrite <- Hconvs.
  rewrite (lookup_insert_eq (with_handler name (_conversations s0)) name).
  cbn [default].
  split; [apply lookup_insert_eq|].
  intros ->. cbn [default]. apply insert_empty.
Qed.
End ConversationRoundTrip.

(** The example of the specification with the json module of the model: the
    handler [h], the key [(1, 2)] and the state [STATE] on a fresh store. *)
Lemma C6_conversation_round_trip_witness :
  let s1 := snd (update_conversation "h" [1; 2] (PStr "STATE") DictPersistence_new) in
  exists j s2,
    fst (conversations_json (json := StdJson.json) s1) = Ok j
    /\ j = "{" ++ StdJson.quoted "h" ++ ": {" ++ StdJson.quoted "[1, 2]" ++ ": "
           ++ StdJson.quoted "STATE" ++ "}}"
    /\ DictPersistence_init (json := StdJson.json) "" "" "" j "" = Ok s2
    /\ fst (get_conversations "h" s2) = Ok {[ [1; 2] := PStr "STATE" ]}.
Proof.
  intros s1.
  set (convs := {[ "h" := {[ [1; 2] := PStr "STATE" ]} ]} : Conversations).
  set (j := "{" ++ StdJson.quoted "h" ++ ": {" ++ StdJson.quoted "[1, 2]" ++ ": "
            ++ StdJson.quoted "STATE" ++ "}}").
  assert (Hkeys : keys_round_trip (json := StdJson.json) convs).
  { intros h st k v Hh Hk. unfold convs in Hh.
    apply lookup_singleton_Some in Hh as [<- <-].
    apply lookup_singleton_Some in Hk as [<- <-].
    eexists. eexists. split; [vm_compute; reflexivity|].
    split; vm_compute; reflexivity. }
  destruct (C6_conversation_round_trip (json := StdJson.json)
              DictPersistence_new "h" [1; 2] (PStr "STATE") convs j)
    as (Hj & s2 & states & Hinit & _ & Hget & _ & Hfresh).
  - reflexivity.
  - vm_compute. reflexivity.
  - exact Hkeys.
  - vm_compute. reflexivity.
  - discriminate.
  - vm_compute. reflexivity.
  - exists j, s2. split; [exact Hj|]. split; [reflexivity|]. split; [exact Hinit|].
    rewrite Hget. f_equal. apply Hfresh. reflexivity.
Defined.

(** * Further properties of the two modules *)

(** ** check_update of CommandHandler, by the shape of the command text *)

Lemma app_str_assoc (a b c : string) : (a ++ b) ++ c = a ++ (b ++ c).
Proof.
  induction a as [|x a IH]; [done|]. by rewrite !app_str_cons, IH.
Qed.

Lemma split_on_from_no_sep sep tok s :
  forallb (fun c => negb (Ascii.eqb c sep)) (list_ascii_of_string s) = true ->
  split_on_from sep tok s = [tok ++ s].
Proof.
  revert tok. induction s as [|c s IH]; intros tok H; simpl in *.
  - by rewrite app_str_nil_r.
  - apply andb_true_iff in H as [Hc H]. apply negb_true_iff in Hc. rewrite Hc.
    rewrite (IH _ H). by rewrite app_str_assoc.
Qed.

Lemma split_on_from_sep sep tok a b :
  forallb (fun c => negb (Ascii.eqb c sep)) (list_ascii_of_string a) = true ->
  split_on_from sep tok (a ++ String sep b) = (tok ++ a) :: split_on_from sep "" b.
Proof.
  revert tok. induction a as [|c a IH]; intros tok H.
  - rewrite app_str_nil, app_str_nil_r. simpl. by rewrite Ascii.eqb_refl.
  - rewrite app_str_cons. simpl in *.
    apply andb_true_iff in H as [Hc H]. apply negb_true_iff in Hc. rewrite Hc.
    rewrite (IH _ H). by rewrite app_str_assoc.
Qed.

(** What [check_update] returns on a message of the shape it looks at. *)
Lemma CommandHandler_check_update_shaped h u m txt len b p0 p1 rest :
  effective_message u = Some m -> command_shaped m txt len b ->
  (split_on "@" (slice txt 1 len) ++ [username b])%list = p0 :: p1 :: rest ->
  CommandHandler_check_update h (AnUpdate u)
  = Ok (if str_in (lower p0) (command h) && String.eqb (lower p1) (lower (username b))
        then (if truthy (filters h u)
              then Matched (tl (split txt)) (filters h u) else Rejected)
        else NoMatch).
Proof.
  intros Hm (e0 & es & He & Hty & Hoff & Hlen & Ht & Hne & Hb) Hparts.
  unfold CommandHandler_check_update. rewrite Hm, He. simpl.
  rewrite Hty, Hoff, String.eqb_refl. simpl.
  unfold nonempty. rewrite Ht, Hb.
  destruct (String.eqb_spec txt "") as [|_]; [done|].
  rewrite Hlen, Hparts. simpl.
  destruct (str_in (lower p0) (command h) && String.eqb (lower p1) (lower (username b)));
    simpl; [|done].
  destruct (truthy (filters h u)); done.
Qed.

(** X1.  On a message whose first entity is a bot command at offset 0, with a
    text and a bot, and whose command text [text[1:length]] holds no [@],
    [CommandHandler.check_update] compares the lower-cased command text with
    the commands of the handler and nothing else: the name of the bot plays no
    part.  It returns [None] when the command is not one of the handler, and
    otherwise the pair of the arguments [text.split()[1:]] and of the filter
    result when the filter accepts, [False] when it does not. *)
Theorem CommandHandler_command_without_suffix h u m txt len b :
  effective_message u = Some m -> command_shaped m txt len b ->
  no_at (slice txt 1 len) = true ->
  CommandHandler_check_update h (AnUpdate u)
  = Ok (if str_in (lower (slice txt 1 len)) (command h)
        then (if truthy (filters h u)
              then Matched (tl (split txt)) (filters h u) else Rejected)
        else NoMatch).
Proof.
  intros Hm Hshape Hno.
  rewrite (CommandHandler_check_update_shaped h u m txt len b
             (slice txt 1 len) (username b) [] Hm Hshape).
  - by rewrite String.eqb_refl, andb_true_r.
  - unfold split_on. by rewrite (split_on_from_no_sep _ _ _ Hno).
Qed.

Lemma CommandHandler_command_without_suffix_witness :
  CommandHandler_check_update {| command := ["start"]; filters := Filters_update_messages |}
    (AnUpdate (message_update (command_message "/START now" 6 "anybot")))
  = Ok (Matched ["now"] (PBool true)).
Proof.
  rewrite (CommandHandler_command_without_suffix _ _
             (command_message "/START now" 6 "anybot") "/START now" 6
             {| username := "anybot" |}).
  - reflexivity.
  - reflexivity.
  - unfold command_shaped, command_message. simpl. eexists _, _. repeat split; done.
  - reflexivity.
Defined.

(** X2.  When the command text is [cmd@name] with no further [@],
    [CommandHandler.check_update] goes on to the filter if and only if the
    lower-cased [cmd] is a command of the handler and [name] is the user name
    of the bot up to case; otherwise it returns [None]. *)
Theorem CommandHandler_command_with_suffix h u m txt len b cmd name :
  effective_message u = Some m -> command_shaped m txt len b ->
  slice txt 1 len = cmd ++ String "@" name ->
  no_at cmd = true -> no_at name = true ->
  CommandHandler_check_update h (AnUpdate u)
  = Ok (if str_in (lower cmd) (command h) && String.eqb (lower name) (lower (username b))
        then (if truthy (filters h u)
              then Matched (tl (split txt)) (filters h u) else Rejected)
        else NoMatch).
Proof.
  intros Hm Hshape Hraw Hcmd Hname.
  apply (CommandHandler_check_update_shaped h u m txt len b cmd name [username b] Hm Hshape).
  rewrite Hraw. unfold split_on.
  rewrite (split_on_from_sep _ _ _ _ Hcmd), (split_on_from_no_sep _ _ _ Hname).
  reflexivity.
Qed.

Lemma CommandHandler_command_with_suffix_witness :
  CommandHandler_check_update {| command := ["start"]; filters := Filters_update_messages |}
    (AnUpdate (message_update (command_message "/Start@MyBot a" 12 "mybot")))
  = Ok (Matched ["a"] (PBool true))
  /\ CommandHandler_check_update {| command := ["start"]; filters := Filters_update_messages |}
       (AnUpdate (message_update (command_message "/Start@MyBot a" 12 "hisbot")))
     = Ok NoMatch.
Proof.
  split.
  - rewrite (CommandHandler_command_with_suffix _ _
               (command_message "/Start@MyBot a" 12 "mybot") "/Start@MyBot a" 12
               {| username := "mybot" |} "Start" "MyBot"); try reflexivity.
    unfold command_shaped, command_message. simpl. eexists _, _. repeat split; done.
  - rewrite (CommandHandler_command_with_suffix _ _
               (command_message "/Start@MyBot a" 12 "hisbot") "/Start@MyBot a" 12
               {| username := "hisbot" |} "Start" "MyBot"); try reflexivity.
    unfold command_shaped, command_message. simpl. eexists _, _. repeat split; done.
Defined.

(** ** The arguments of a match *)

Lemma list_ascii_app (a b : string) :
  list_ascii_of_string (a ++ b) = (list_ascii_of_string a ++ list_ascii_of_string b)%list.
Proof. induction a as [|c a IH]; [done|]. rewrite app_str_cons. simpl. by rewrite IH. Qed.

Lemma split_from_tokens tok s :
  tok = "" \/ is_token tok -> Forall is_token (split_from tok s).
Proof.
  revert tok. induction s as [|c s IH]; intros tok Htok; simpl.
  - destruct (String.eqb_spec tok "") as [->|Hne]; [constructor|].
    destruct Htok as [?|Htok]; [done|]. by constructor.
  - destruct (isspace c) eqn:Hc.
    + destruct (String.eqb_spec tok "") as [->|Hne]; [by apply IH; left|].
      destruct Htok as [?|Htok]; [done|]. constructor; [done|]. apply IH. by left.
    + apply IH. right. split.
      * destruct tok; discriminate.
      * rewrite list_ascii_app, forallb_app. simpl. rewrite Hc. simpl.
        destruct Htok as [->|[_ Htok]]; [done|]. by rewrite Htok.
Qed.

Lemma split_tokens s : Forall is_token (split s).
Proof. apply split_from_tokens. by left. Qed.

Lemma Forall_tl {A} (P : A -> Prop) l : Forall P l -> Forall P (tl l).
Proof. destruct 1; [constructor|done]. Qed.

Lemma CommandHandler_check_update_args h update args fr :
  CommandHandler_check_update h update = Ok (Matched args fr) ->
  exists u m txt, update = AnUpdate u /\ effective_message u = Some m
                  /\ text m = Some txt /\ args = tl (split txt) /\ fr = filters h u
                  /\ truthy fr = true.
Proof.
  unfold CommandHandler_check_update.
  destruct update as [u|]; [|done].
  destruct (effective_message u) as [m|] eqn:Hm; [|done].
  destruct (entities m) as [|e0 es]; [done|]. simpl.
  match goal with |- context [if ?c then _ else _] => destruct c end; [|done].
  unfold nonempty. destruct (text m) as [txt|] eqn:Ht; [|done].
  destruct (String.eqb txt ""); [done|].
  destruct (bot m) as [b|]; [|done].
  destruct (command_parts_subscripts (slice txt 1 (MessageEntity.length e0)) (username b))
    as (p0 & p1 & -> & ->). simpl.
  match goal with |- context [if ?c then _ else _] => destruct c end; [done|].
  destruct (truthy (filters h u)) eqn:Hf; [|done].
  intros [= <- <-]. exists u, m, txt. done.
Qed.

Lemma PrefixHandler_check_update_args h update args fr :
  PrefixHandler_check_update h update = Ok (Matched args fr) ->
  exists u m txt, update = AnUpdate u /\ effective_message u = Some m
                  /\ text m = Some txt /\ args = tl (split txt) /\ fr = ph_filters h u
                  /\ truthy fr = true.
Proof.
  unfold PrefixHandler_check_update.
  destruct update as [u|]; [|done].
  destruct (effective_message u) as [m|] eqn:Hm; [|done].
  unfold nonempty. destruct (text m) as [txt|] eqn:Ht; [|done].
  destruct (String.eqb txt ""); [done|].
  destruct (split txt) as [|t0 ts] eqn:Hs; [done|]. simpl.
  match goal with |- context [if ?c then _ else _] => destruct c end; [done|].
  destruct (truthy (ph_filters h u)) eqn:Hf; [|done].
  intros [= <- <-]. exists u, m, txt. rewrite Hs. done.
Qed.

(** X3.  The arguments that [check_update] of either handler returns are never
    empty and hold no white space: they are the tokens of [text.split()] after
    the first. *)
Theorem check_update_args_are_tokens update args fr :
  (forall h, CommandHandler_check_update h update = Ok (Matched args fr) ->
             Forall is_token args)
  /\ (forall h, PrefixHandler_check_update h update = Ok (Matched args fr) ->
                Forall is_token args).
Proof.
  split; intros h H.
  - apply CommandHandler_check_update_args in H as (u & m & txt & _ & _ & _ & -> & _).
    apply Forall_tl, split_tokens.
  - apply PrefixHandler_check_update_args in H as (u & m & txt & _ & _ & _ & -> & _).
    apply Forall_tl, split_tokens.
Qed.

Lemma check_update_args_are_tokens_witness :
  Forall is_token ["extra"; "args"].
Proof.
  apply (proj2 (check_update_args_are_tokens
                  (AnUpdate (message_update (text_message "!test  extra args ")))
                  ["extra"; "args"] (PBool true))
           {| ph_filters := Filters_update_messages; _prefix := ["!"];
              _command := ["test"]; _commands := ["!test"] |}).
  vm_compute. reflexivity.
Defined.

(** ** The filter that the constructors put in front *)

Lemma CommandHandler_init_filters cmds user_filter h :
  CommandHandler_init cmds user_filter = Ok h ->
  filters h = match user_filter with
              | Some f => filter_and Filters_update_messages f
              | None => Filters_update_messages
              end.
Proof.
  unfold CommandHandler_init, CommandHandler_init_body.
  destruct cmds as [s|l];
    cbn [set_command get_command set_filters CommandHandler_slots command filters];
    match goal with |- context [validate_commands ?l] => destruct (validate_commands l) end;
    cbn [mbind result_bind]; try done;
    destruct user_filter; cbn [mret result_ret]; by intros [= <-].
Qed.

Lemma PrefixHandler_init_filters prefix cmds user_filter h :
  PrefixHandler_init prefix cmds user_filter = Ok h ->
  ph_filters h = match user_filter with
                 | Some f => filter_and Filters_update_messages f
                 | None => Filters_update_messages
                 end.
Proof.
  unfold PrefixHandler_init, CommandHandler_init_body.
  cbn [set_command get_command set_filters PrefixHandler_slots
       set_command_property _build_commands _command _prefix _commands ph_filters].
  rewrite nocommand_valid. cbn [mbind result_bind].
  destruct user_filter; cbn [mret result_ret mbind result_bind]; by intros [= <-].
Qed.

Lemma baseline_rejects_posts u f :
  message u = None -> edited_message u = None ->
  truthy (match f with
          | Some g => filter_and Filters_update_messages g
          | None => Filters_update_messages
          end u) = false.
Proof.
  intros Hm He. destruct f as [g|]; unfold filter_and, Filters_update_messages;
    rewrite Hm, He; reflexivity.
Qed.

(** X4.  A handler built by the constructor of [CommandHandler] or of
    [PrefixHandler], with or without a filter of the caller, never returns a
    pair for an update that carries neither a message nor an edited message,
    such as a channel post: [Filters.update.messages], which the constructor
    puts in front of the filter of the caller, rejects it. *)
Theorem channel_posts_are_never_handled u user_filter args fr :
  message u = None -> edited_message u = None ->
  (forall cmds h, CommandHandler_init cmds user_filter = Ok h ->
                  CommandHandler_check_update h (AnUpdate u) <> Ok (Matched args fr))
  /\ (forall prefix cmds h, PrefixHandler_init prefix cmds user_filter = Ok h ->
                            PrefixHandler_check_update h (AnUpdate u) <> Ok (Matched args fr)).
Proof.
  intros Hm He. split.
  - intros cmds h Hh H.
    apply CommandHandler_check_update_args in H as (u' & _ & _ & [= <-] & _ & _ & _ & -> & Ht).
    rewrite (CommandHandler_init_filters _ _ _ Hh) in Ht.
    by rewrite (baseline_rejects_posts u user_filter Hm He) in Ht.
  - intros prefix cmds h Hh H.
    apply PrefixHandler_check_update_args in H as (u' & _ & _ & [= <-] & _ & _ & _ & -> & Ht).
    rewrite (PrefixHandler_init_filters _ _ _ _ Hh) in Ht.
    by rewrite (baseline_rejects_posts u user_filter Hm He) in Ht.
Qed.

Lemma channel_posts_are_never_handled_witness :
  PrefixHandler_check_update
    {| ph_filters := Filters_update_messages; _prefix := ["!"];
       _command := ["test"]; _commands := ["!test"] |}
    (AnUpdate {| message := None; edited_message := None;
                 channel_post := Some (text_message "!test a");
                 edited_channel_post := None |})
  <> Ok (Matched ["a"] (PBool true)).
Proof.
  apply (proj2 (channel_posts_are_never_handled
                  {| message := None; edited_message := None;
                     channel_post := Some (text_message "!test a");
                     edited_channel_post := None |}
                  None ["a"] (PBool true) eq_refl eq_refl) (Str "!") (Str "test")).
  vm_compute. reflexivity.
Defined.

(** ** The commands that the constructor accepts *)

(** X5.  On commands whose characters have code points below 256, the
    strings of the model: [CommandHandler.__init__] succeeds exactly when
    every command, once lower-cased, is made of 1 to 32 characters among
    [a-z], [0-9] and [_], alone or followed by one line feed; it then
    stores the lower-cased commands in their order.  For every other such
    command it raises [ValueError].  (Beyond code point 255 the class [\d]
    of the pattern holds further digits, which the model does not have.) *)
Theorem CommandHandler_init_exactly cmds user_filter :
  (Forall accepted_token (as_list cmds) ->
   exists h, CommandHandler_init cmds user_filter = Ok h
             /\ command h = map lower (as_list cmds))
  /\ (~ Forall accepted_token (as_list cmds) ->
      CommandHandler_init cmds user_filter = Raise ValueError).
Proof.
  assert (Hiff : forallb (fun x => re_match_command (lower x)) (as_list cmds) = true
                 <-> Forall accepted_token (as_list cmds)).
  { rewrite forallb_forall, Forall_forall. split; intros H x Hx.
    - apply re_match_command_spec. apply H. by apply list_elem_of_In.
    - apply re_match_command_spec. apply H. by apply list_elem_of_In. }
  split.
  - intros H. apply Hiff in H.
    assert (Hv : validate_commands (map lower (as_list cmds)) = Ok tt).
    { apply validate_commands_ok. by rewrite forallb_map_lower. }
    unfold CommandHandler_init, CommandHandler_init_body.
    destruct cmds as [s|l]; simpl in *; rewrite Hv; simpl;
      destruct user_filter; simpl; eauto.
  - intros H. apply CommandHandler_init_invalid.
    destruct (forallb _ _) eqn:Hf; [|done]. exfalso. apply H. by apply Hiff.
Qed.

Lemma CommandHandler_init_exactly_witness :
  (exists h, CommandHandler_init (Seq ["Start"; "help_me"]) None = Ok h
             /\ command h = ["start"; "help_me"])
  /\ CommandHandler_init (Str "no-dash") None = Raise ValueError.
Proof.
  split.
  - apply (proj1 (CommandHandler_init_exactly (Seq ["Start"; "help_me"]) None)).
    repeat constructor; left; reflexivity.
  - apply (proj2 (CommandHandler_init_exactly (Str "no-dash") None)).
    intros H. apply Forall_cons in H as [H _].
    apply re_match_command_spec in H. vm_compute in H. discriminate.
Defined.

Lemma CommandHandler_no_command h update :
  command h = [] -> CommandHandler_check_update h update = Ok NoMatch.
Proof.
  intros Hc. unfold CommandHandler_check_update.
  destruct update as [u|]; [|done].
  destruct (effective_message u) as [m|]; [|done].
  destruct (entities m) as [|e0 es]; [done|]. simpl.
  match goal with |- context [if ?c then _ else _] => destruct c end; [|done].
  destruct (nonempty (text m)) as [txt|]; [|done].
  destruct (bot m) as [b|]; [|done].
  destruct (command_parts_subscripts (slice txt 1 (MessageEntity.length e0)) (username b))
    as (p0 & p1 & -> & ->). simpl.
  rewrite Hc. done.
Qed.

Lemma triggers_nil_r ps : triggers ps [] = [].
Proof. unfold triggers. induction ps as [|p ps IH]; [done|]. simpl. exact IH. Qed.

(** X6.  A handler without a trigger never matches.  A [CommandHandler] built
    from an empty list of commands, which the constructor accepts, returns
    [None] for every update.  A [PrefixHandler] whose prefixes or commands
    are empty returns [None] for every update but one kind: on a message
    whose text is not empty and holds white space only it raises
    [IndexError], as every [PrefixHandler] does. *)
Theorem handler_without_trigger_matches_nothing :
  (forall user_filter,
     exists h, CommandHandler_init (Seq []) user_filter = Ok h
               /\ forall update, CommandHandler_check_update h update = Ok NoMatch)
  /\ (forall h prefixes cmds,
        triggers_of h prefixes cmds -> prefixes = [] \/ cmds = [] ->
        forall update,
          PrefixHandler_check_update h update
          = if blank_text update then Raise IndexError else Ok NoMatch).
Proof.
  split.
  - intros user_filter.
    destruct (CommandHandler_init_valid (Seq []) user_filter eq_refl) as (h & Hh & Hc).
    exists h. split; [done|]. intros update. by apply CommandHandler_no_command.
  - intros h ps cs (_ & _ & Ht) Hempty update.
    assert (Hnil : _commands h = []).
    { rewrite Ht. destruct Hempty as [-> | ->]; [done|]. apply triggers_nil_r. }
    unfold PrefixHandler_check_update, blank_text.
    destruct update as [u|]; [|done].
    destruct (effective_message u) as [m|]; [|done].
    destruct (nonempty (text m)) as [txt|]; [|done].
    destruct (split txt) as [|t0 ts]; [done|]. simpl.
    rewrite Hnil. done.
Qed.

Lemma handler_without_trigger_matches_nothing_witness :
  exists h,
    PrefixHandler_init (Seq []) (Seq ["test"]) None = Ok h
    /\ PrefixHandler_check_update h (AnUpdate (message_update (text_message "test")))
       = Ok NoMatch
    /\ PrefixHandler_check_update h (AnUpdate (message_update (text_message " ")))
       = Raise IndexError.
Proof.
  destruct (PrefixHandler_init_triggers (Seq []) (Seq ["test"]) None) as (h & Hh & Ht).
  exists h. split; [exact Hh|]. split.
  - apply (proj2 handler_without_trigger_matches_nothing h [] ["test"] Ht). by left.
  - apply (proj2 handler_without_trigger_matches_nothing h [] ["test"] Ht). by left.
Defined.

(** ** collect_additional_context *)

Lemma getattr_setattr name v context :
  getattr name (setattr name v context) = Some v.
Proof.
  unfold getattr, setattr. simpl.
  induction (attributes context) as [|[k x] d IH]; simpl.
  - by rewrite String.eqb_refl.
  - destruct (py_eqb k (PStr name)) eqn:Hk; simpl; [by rewrite Hk|].
    rewrite Hk. exact IH.
Qed.

Lemma getattr_setattr_ne name name' v context :
  name <> name' -> getattr name' (setattr name v context) = getattr name' context.
Proof.
  intros Hne. unfold getattr, setattr. simpl.
  induction (attributes context) as [|[k x] d IH]; simpl.
  - destruct (String.eqb_spec name name'); [done|]. done.
  - destruct (py_eqb k (PStr name)) eqn:Hk; simpl.
    + destruct (py_eqb k (PStr name')) eqn:Hk'; simpl; [|done].
      destruct k; simpl in *; try done.
      apply String.eqb_eq in Hk, Hk'. congruence.
    + destruct (py_eqb k (PStr name')); simpl; [done|]. exact IH.
Qed.

Lemma collect_additional_context_pair context args fr :
  (forall d, fr <> PDict d) ->
  getattr "args" (collect_additional_context context (Matched args fr))
  = Some (PList (map PStr args))
  /\ forall name, name <> "args" ->
       getattr name (collect_additional_context context (Matched args fr))
       = getattr name context.
Proof.
  intros Hfr. unfold collect_additional_context.
  assert (H : match fr with
              | PDict d => context_update d (setattr "args" (PList (map PStr args)) context)
              | _ => setattr "args" (PList (map PStr args)) context
              end = setattr "args" (PList (map PStr args)) context).
  { destruct fr; try done. by destruct (Hfr d). }
  rewrite H. split; [apply getattr_setattr|].
  intros name Hne. apply getattr_setattr_ne. congruence.
Qed.

Lemma baseline_result u : exists b, Filters_update_messages u = PBool b.
Proof. unfold Filters_update_messages. eauto. Qed.

(** X7.  [collect_additional_context] after [check_update] of a handler built
    without a filter of the caller: when the check returned a pair, the
    attribute [args] of the context is the list [text.split()[1:]] of the
    message and every other attribute is as before; when it returned [None] or
    [False], the context is unchanged. *)
Theorem collect_additional_context_after_check
    (context : CallbackContext) (update : object) (r : MatchResult) :
  (exists cmds h, CommandHandler_init cmds None = Ok h
                  /\ CommandHandler_check_update h update = Ok r)
  \/ (exists prefix cmds h, PrefixHandler_init prefix cmds None = Ok h
                            /\ PrefixHandler_check_update h update = Ok r) ->
  if is_pair r
  then exists u m txt,
         update = AnUpdate u /\ effective_message u = Some m /\ text m = Some txt
         /\ getattr "args" (collect_additional_context context r)
            = Some (PList (map PStr (tl (split txt))))
         /\ forall name, name <> "args" ->
              getattr name (collect_additional_context context r) = getattr name context
  else collect_additional_context context r = context.
Proof.
  intros H. destruct r as [| |args fr]; [done|done|]. cbn [is_pair].
  assert (Hr : exists u m txt,
             update = AnUpdate u /\ effective_message u = Some m /\ text m = Some txt
             /\ args = tl (split txt) /\ forall d, fr <> PDict d).
  { destruct H as [(cmds & h & Hh & Hc)|(prefix & cmds & h & Hh & Hc)].
    - apply CommandHandler_check_update_args in Hc as (u & m & txt & ? & ? & ? & ? & Hf & _).
      exists u, m, txt. repeat split; try done.
      rewrite (CommandHandler_init_filters _ _ _ Hh) in Hf.
      destruct (baseline_result u) as [b Hb]. intros d. congruence.
    - apply PrefixHandler_check_update_args in Hc as (u & m & txt & ? & ? & ? & ? & Hf & _).
      exists u, m, txt. repeat split; try done.
      rewrite (PrefixHandler_init_filters _ _ _ _ Hh) in Hf.
      destruct (baseline_result u) as [b Hb]. intros d. congruence. }
  destruct Hr as (u & m & txt & Hu & Hm & Ht & -> & Hfr).
  exists u, m, txt. split; [done|]. split; [done|]. split; [done|].
  by apply collect_additional_context_pair.
Qed.

Lemma collect_additional_context_after_check_witness :
  getattr "args"
    (collect_additional_context
       {| attributes := [(PStr "user_data", PDict [])] |}
       (Matched ["a"; "b"] (PBool true)))
  = Some (PList [PStr "a"; PStr "b"]).
Proof.
  destruct (collect_additional_context_after_check
              {| attributes := [(PStr "user_data", PDict [])] |}
              (AnUpdate (message_update (text_message "!test a b")))
              (Matched ["a"; "b"] (PBool true)))
    as (u & m & txt & Hu & Hm & Ht & Hargs & _).
  - right. exists (Seq ["!"]), (Seq ["test"]). eexists.
    split; vm_compute; reflexivity.
  - injection Hu as <-. injection Hm as <-. injection Ht as <-. exact Hargs.
Defined.

(** ** The constructor of the store *)

Section Construction.
Context {json : JsonModule}.


Lemma bind_Ok {A B} (r : result A) (f : A -> result B) y :
  r ≫= f = Ok y <-> exists x, r = Ok x /\ f x = Ok y.
Proof.
  destruct r as [x|e]; simpl; split.
  - eauto.
  - by intros (x' & [= <-] & H).
  - done.
  - by intros (x' & ? & _).
Qed.




Ltac ok_cases H :=
  repeat match type of H with
  | Raise _ = Ok _ => discriminate H
  | Ok _ = Ok _ => injection H as H
  | (if String.eqb ?a "" then _ else _) = Ok _ =>
      let Ha := fresh "Hin" in destruct (String.eqb_spec a "") as [Ha|Ha]
  | _ ≫= _ = Ok _ =>
      let x := fresh "x" in let Hx := fresh "Hx" in
      apply bind_Ok in H as (x & Hx & H)
  | match ?d with _ => _ end = Ok _ => destruct d
  end.

(** X9.  When the constructor, called without a text for the callback
    data, succeeds: a text of user data, chat data, bot data or
    conversations that was given not empty is kept as it is in the cache of
    its collection, and the property that serializes the collection returns
    this very text; for a text given empty, and for the callback data, the
    collection and its cache are left as [None]. *)
Theorem DictPersistence_init_keeps_texts a b c d s (col : Collection) :
  DictPersistence_init a b c d "" = Ok s ->
  let txt := constructor_input col a b c d "" in
  (txt = "" -> cache_of col s = None /\ same_collection col s DictPersistence_new)
  /\ (txt <> "" -> cache_of col s = Some txt /\ json_property col s = (Ok txt, s)).
Proof.
  intros H txt. subst txt. unfold DictPersistence_init in H.
  change (String.eqb "" "") with true in H. cbv iota in H.
  apply bind_Ok in H as (s1 & H1 & H). apply bind_Ok in H as (s2 & H2 & H).
  apply bind_Ok in H as (s3 & H3 & H). apply bind_Ok in H as (s4 & H4 & H).
  ok_cases H1; ok_cases H2; ok_cases H3; ok_cases H4; ok_cases H; subst;
    destruct col; cbn [constructor_input]; (split; [intros Hempty|intros Hfull]);
    try done;
    try (split; [reflexivity|]; apply json_property_hit; [reflexivity|done]).
Qed.

End Construction.


Lemma DictPersistence_init_keeps_texts_witness :
  let s := set_bot_data_json (Some "{}") (set_bot_data (PDict []) DictPersistence_new) in
  DictPersistence_init (json := StdJson.json) "" "" "{}" "" "" = Ok s
  /\ json_property (json := StdJson.json) BotData s = (Ok "{}", s)
  /\ cache_of UserData s = None.
Proof.
  intros s.
  assert (H : DictPersistence_init (json := StdJson.json) "" "" "{}" "" "" = Ok s)
    by (vm_compute; reflexivity).
  split; [exact H|]. split.
  - apply (proj2 (DictPersistence_init_keeps_texts (json := StdJson.json)
                    "" "" "{}" "" s BotData H)). discriminate.
  - apply (proj1 (DictPersistence_init_keeps_texts (json := StdJson.json)
                    "" "" "{}" "" s UserData H)). reflexivity.
Defined.

(** ** int on the decimal text of an integer *)

Lemma isdigit_not_space c : isdigit c = true -> int_space c = false.
Proof. destruct c as [[] [] [] [] [] [] [] []]; done. Qed.

Lemma isdigit_not_sign c :
  isdigit c = true -> Ascii.eqb c "-" = false /\ Ascii.eqb c "+" = false.
Proof. destruct c as [[] [] [] [] [] [] [] []]; done. Qed.

Lemma uint_digits d :
  Forall (fun c => isdigit c = true) (list_ascii_of_string (NilEmpty.string_of_uint d)).
Proof. induction d; simpl; constructor; done. Qed.

Lemma uint_digits_zero d :
  Forall (fun c => isdigit c = true) (list_ascii_of_string (NilZero.string_of_uint d))
  /\ NilZero.string_of_uint d <> "".
Proof.
  destruct d; simpl; (split; [|done]);
    try (constructor; [done|apply uint_digits]).
  by repeat constructor.
Qed.

Lemma rev_app_rev_app s1 s2 s3 :
  String.rev_app (String.rev_app s1 s2) s3 = String.rev_app s2 (s1 ++ s3).
Proof.
  revert s2 s3. induction s1 as [|a s1 IH]; intros s2 s3; simpl.
  - by rewrite app_str_nil.
  - by rewrite IH, app_str_cons.
Qed.

Lemma rev_rev s : String.rev (String.rev s) = s.
Proof.
  unfold String.rev. rewrite rev_app_rev_app. simpl. apply app_str_nil_r.
Qed.

Lemma rev_app_Forall (P : ascii -> Prop) s1 s2 :
  Forall P (list_ascii_of_string s1) -> Forall P (list_ascii_of_string s2) ->
  Forall P (list_ascii_of_string (String.rev_app s1 s2)).
Proof.
  revert s2. induction s1 as [|a s1 IH]; intros s2 H1 H2; simpl in *; [done|].
  apply Forall_cons in H1 as [Ha H1]. apply IH; [done|]. by constructor.
Qed.

Lemma int_lstrip_id s :
  Forall (fun c => int_space c = false) (list_ascii_of_string s) -> int_lstrip s = s.
Proof.
  destruct s as [|c s]; simpl; [done|]. intros [Hc _]%Forall_cons. by rewrite Hc.
Qed.

Lemma int_strip_id s :
  Forall (fun c => int_space c = false) (list_ascii_of_string s) -> int_strip s = s.
Proof.
  intros H. unfold int_strip. rewrite (int_lstrip_id s H), int_lstrip_id; [apply rev_rev|].
  apply rev_app_Forall; [done|constructor].
Qed.

Lemma grouped_digits_id b s :
  Forall (fun c => isdigit c = true) (list_ascii_of_string s) ->
  b = true \/ s <> "" -> grouped_digits b s = Some s.
Proof.
  revert b. induction s as [|c s IH]; intros b H Hb; simpl in *.
  - destruct Hb as [->|]; done.
  - apply Forall_cons in H as [Hc H]. rewrite Hc, (IH true H); [done|by left].
Qed.

Lemma int_of_digits s :
  Forall (fun c => isdigit c = true) (list_ascii_of_string s) -> s <> "" ->
  int_of_str s
  = match NilZero.int_of_string s with
    | Some n => Ok (Z.of_int n)
    | None => Raise ValueError
    end
  /\ int_of_str (String "-" s)
     = match NilZero.int_of_string (String "-" s) with
       | Some n => Ok (Z.of_int n)
       | None => Raise ValueError
       end.
Proof.
  intros H Hne.
  assert (Hsp : Forall (fun c => int_space c = false) (list_ascii_of_string s)).
  { eapply Forall_impl; [exact H|]. apply isdigit_not_space. }
  unfold int_of_str. split.
  - rewrite (int_strip_id s Hsp). destruct s as [|c s'] eqn:Hs; [done|]. rewrite <- Hs in *.
    assert (Hc : isdigit c = true).
    { rewrite Hs in H. simpl in H. by apply Forall_cons in H as [? _]. }
    destruct (isdigit_not_sign c Hc) as [-> ->].
    by rewrite (grouped_digits_id false s H), app_str_nil by (by right).
  - rewrite int_strip_id by (simpl; by constructor).
    change (Ascii.eqb "-" "-") with true. cbv iota.
    by rewrite (grouped_digits_id false s H) by (by right).
Qed.

Lemma int_of_str_decimal z : int_of_str (StdJson.decimal z) = Ok z.
Proof.
  unfold StdJson.decimal. pose proof (DecimalZ.of_to z) as Hz.
  destruct z as [|p|p]; [done| |].
  - change (Z.to_int (Z.pos p)) with (Decimal.Pos (Pos.to_uint p)) in *.
    pose proof (DecimalPos.Unsigned.to_uint_nonnil p) as Hnn.
    destruct (uint_digits_zero (Pos.to_uint p)) as [Hd Hne].
    destruct (int_of_digits _ Hd Hne) as [H _].
    change (NilZero.string_of_int (Decimal.Pos (Pos.to_uint p)))
      with (NilZero.string_of_uint (Pos.to_uint p)) at 1.
    rewrite H.
    change (NilZero.string_of_uint (Pos.to_uint p))
      with (NilZero.string_of_int (Decimal.Pos (Pos.to_uint p))).
    rewrite NilZero.isi; [by rewrite Hz| |done]. intros [= ?]. done.
  - change (Z.to_int (Z.neg p)) with (Decimal.Neg (Pos.to_uint p)) in *.
    pose proof (DecimalPos.Unsigned.to_uint_nonnil p) as Hnn.
    destruct (uint_digits_zero (Pos.to_uint p)) as [Hd Hne].
    destruct (int_of_digits _ Hd Hne) as [_ H].
    change (NilZero.string_of_int (Decimal.Neg (Pos.to_uint p)))
      with (String "-" (NilZero.string_of_uint (Pos.to_uint p))) at 1.
    rewrite H.
    change (String "-" (NilZero.string_of_uint (Pos.to_uint p)))
      with (NilZero.string_of_int (Decimal.Neg (Pos.to_uint p))).
    rewrite NilZero.isi; [by rewrite Hz|done|]. intros [= ?]. done.
Qed.

(** ** User and chat data of a payload *)

Section Decoding.
Context {json : JsonModule}.

(** X10.  The constructor raises [TypeError] for a text that [json.loads]
    refuses with a [ValueError], whatever the collection, and for a text of
    user data, chat data, bot data or conversations that [json.loads] reads as
    something else than a dictionary. *)
Theorem DictPersistence_init_rejects (c : Collection) (t : string) :
  t <> "" ->
  loads t = Raise ValueError
  \/ (c <> CallbackData /\ exists v, loads t = Ok v /\ is_dict v = false) ->
  init_only c t = Raise TypeError.
Proof.
  intros Ht%String.eqb_neq H. unfold init_only, DictPersistence_init.
  destruct H as [H|(Hc & v & H & Hv)].
  - destruct c; simpl; rewrite Ht;
      unfold _decode_user_chat_data_from_json, _decode_conversations_from_json;
      by rewrite H.
  - destruct c; try done; simpl; rewrite Ht;
      unfold _decode_user_chat_data_from_json, _decode_conversations_from_json;
      rewrite H; by destruct v.
Qed.

Lemma dict_set_keys (P : pyval -> Prop) k v d :
  P k -> Forall (fun kv => P kv.1) d -> Forall (fun kv => P kv.1) (dict_set k v d).
Proof.
  intros Hk. induction 1 as [|[k' v'] d Hk' Hd IH]; simpl.
  - by apply Forall_singleton.
  - destruct (py_eqb k' k); by constructor.
Qed.

Lemma decode_entries_keys entries acc r :
  decode_entries entries acc = Ok r ->
  Forall (fun kv => decoded_key kv.1 = true) acc ->
  Forall (fun kv => decoded_key kv.1 = true) r.
Proof.
  revert acc. induction entries as [|[k v] entries IH]; intros acc; simpl.
  { by intros [= <-]. }
  intros H Hacc.
  destruct (int k) as [z|e] eqn:Hk; simpl in H.
  - apply IH in H; [done|]. by apply (dict_set_keys (fun k => decoded_key k = true)).
  - destruct e; simpl in H; try done.
    apply IH in H; [done|]. apply (dict_set_keys (fun k => decoded_key k = true)); [|done].
    unfold decoded_key. rewrite Hk. by destruct k.
Qed.

Lemma decode_users_spec l acc r :
  decode_users l acc = Ok r ->
  (forall uid v, r !! uid = Some v ->
     acc !! uid = Some v
     \/ exists k entries inner, (k, PDict entries) ∈ l /\ int k = Ok uid
          /\ decode_entries entries [] = Ok inner /\ v = PDict inner)
  /\ (forall uid, is_Some (r !! uid)
        <-> is_Some (acc !! uid) \/ exists k v, (k, v) ∈ l /\ int k = Ok uid).
Proof.
  revert acc. induction l as [|[k v] l IH]; intros acc; simpl.
  { intros [= <-]. split; [by left|]. intros uid. split; [by left|].
    intros [H|(k & v & H & _)]; [done|]. by apply elem_of_nil in H. }
  intros H.
  destruct (int k) as [uid0|] eqn:Hk; [|done]. simpl in H.
  destruct v as [| | | | | |entries]; try done. simpl in H.
  destruct (decode_entries entries []) as [inner|] eqn:He; [|done]. simpl in H.
  apply IH in H as [H1 H2]. split.
  - intros uid v Hv. apply H1 in Hv as [Hv|(k' & en & inn & Hin & ? & ? & ?)].
    + destruct (decide (uid = uid0)) as [->|Hne].
      * rewrite lookup_insert_eq in Hv. injection Hv as <-.
        right. exists k, entries, inner. split; [left|done].
      * rewrite lookup_insert_ne in Hv by done. by left.
    + right. exists k', en, inn. split; [by right|done].
  - intros uid. rewrite H2. split.
    + intros [Hs|(k' & v' & Hin & Hk')].
      * destruct (decide (uid = uid0)) as [->|Hne].
        -- right. exists k, (PDict entries). split; [left|done].
        -- rewrite lookup_insert_ne in Hs by done. by left.
      * right. exists k', v'. split; [by right|done].
    + intros [Hs|(k' & v' & Hin & Hk')].
      * left. destruct (decide (uid = uid0)) as [->|Hne].
        -- by rewrite lookup_insert_eq.
        -- by rewrite lookup_insert_ne by done.
      * apply elem_of_cons in Hin as [[= -> ->]|Hin].
        -- left. assert (uid = uid0) as -> by congruence. by rewrite lookup_insert_eq.
        -- right. by exists k', v'.
Qed.

(** X11.  When [_decode_user_chat_data_from_json] returns, the payload was a
    dictionary, the ids of the result are exactly the integers that [int]
    reads from the keys of the payload, and each value is a dictionary none of
    whose keys is a string that [int] could read: each key is an integer or a
    key that [int] refuses with [ValueError]. *)
Theorem decode_user_chat_data_keys (data : string) (d : IdDict) :
  _decode_user_chat_data_from_json data = Ok d ->
  exists its,
    loads data = Ok (PDict its)
    /\ (forall uid, is_Some (d !! uid) <-> exists k v, (k, v) ∈ its /\ int k = Ok uid)
    /\ (forall uid v, d !! uid = Some v ->
          exists inner, v = PDict inner
            /\ Forall (fun kv => decoded_key kv.1 = true) inner).
Proof.
  unfold _decode_user_chat_data_from_json. intros H.
  destruct (loads data) as [v|] eqn:Hl; [|done]. simpl in H.
  destruct v as [| | | | | |its]; try done. simpl in H.
  exists its. split; [done|].
  apply decode_users_spec in H as [H1 H2]. split.
  - intros uid. rewrite H2. split; [|by right].
    intros [Hs|?]; [|done]. rewrite lookup_empty in Hs. by destruct Hs.
  - intros uid v Hv. apply H1 in Hv as [Hv|(k & en & inn & _ & _ & He & ->)].
    + by rewrite lookup_empty in Hv.
    + exists inn. split; [done|]. by apply (decode_entries_keys en []).
Qed.

Lemma string_or_int_json k :
  string_or_int k = true ->
  match int (json_key k) with
  | Ok z => Ok (PInt z)
  | Raise ValueError => Ok (json_key k)
  | Raise e => Raise e
  end = Ok k.
Proof.
  destruct k as [| |z|s| | |]; try done; simpl.
  - by rewrite int_of_str_decimal.
  - by destruct (int_of_str s) as [|[]].
Qed.

Lemma decode_entries_json (l acc : list (pyval * pyval)) :
  forallb (fun kv => string_or_int kv.1) l = true ->
  distinct_keys l = true ->
  Forall (fun x => Forall (fun kv => py_eqb x.1 kv.1 = false) l) acc ->
  decode_entries (json_entries l) acc = Ok (acc ++ l)%list.
Proof.
  revert acc. induction l as [|[k v] l IH]; intros acc Hk Hd Hacc; simpl.
  { by rewrite app_nil_r. }
  simpl in Hk, Hd. apply andb_true_iff in Hk as [Hk Hl].
  apply andb_true_iff in Hd as [Hkl Hd].
  rewrite (string_or_int_json k Hk). simpl.
  rewrite dict_set_fresh.
  - rewrite IH; [by rewrite <- app_assoc|done|done|].
    apply Forall_app. split.
    + eapply Forall_impl; [exact Hacc|]. intros x Hx. by apply Forall_cons in Hx as [_ ?].
    + apply Forall_singleton. simpl. apply Forall_forall. intros kv Hin.
      rewrite forallb_forall in Hkl. apply negb_true_iff, Hkl.
      by apply list_elem_of_In.
  - eapply Forall_impl; [exact Hacc|]. intros x Hx. by apply Forall_cons in Hx as [? _].
Qed.

Lemma decode_users_json (l : list (Z * pyval)) (acc : IdDict) :
  NoDup l.*1 ->
  Forall (fun kv => survives kv.2 = true) l ->
  decode_users (map json_user l) acc = Ok (list_to_map l ∪ acc).
Proof.
  revert acc. induction l as [|[uid v] l IH]; intros acc Hnd Hl; simpl.
  { by rewrite (left_id_L ∅ (∪)). }
  apply NoDup_cons in Hnd as [Hk Hnd]. apply Forall_cons in Hl as [Hv Hl].
  simpl in Hv. rewrite int_of_str_decimal. simpl.
  destruct v as [| | | | | |entries]; try done. simpl in Hv.
  apply andb_true_iff in Hv as [Hv1 Hv2]. simpl.
  rewrite (decode_entries_json entries []) by done. simpl.
  rewrite IH by done. f_equal.
  rewrite <- insert_union_r; [by rewrite insert_union_l|].
  by apply not_elem_of_list_to_map_1.
Qed.

(** X12.  User data whose inner dictionaries have distinct keys, each an
    integer or a string that [int] refuses, come back as they were: from a
    text that [json.loads] reads as the dictionary of the data, with the ids
    in any order and with the ids and the integer keys turned into their
    decimal texts, [_decode_user_chat_data_from_json] returns the data, the
    constructor succeeds, [get_user_data] returns the data and
    [user_data_json] the text. *)
Theorem user_chat_data_round_trip (d : IdDict) (j : string) (v : pyval) :
  (forall uid x, d !! uid = Some x -> survives x = true) ->
  loads j = Ok v ->
  id_document d v ->
  j <> "" ->
  _decode_user_chat_data_from_json j = Ok d
  /\ exists s,
       DictPersistence_init j "" "" "" "" = Ok s
       /\ get_user_data s = (Ok d, s)
       /\ user_data_json s = (Ok j, s).
Proof.
  intros Hd Hl (payload & -> & Hperm) Hj.
  assert (Hdec : _decode_user_chat_data_from_json j = Ok d).
  { unfold _decode_user_chat_data_from_json. rewrite Hl. simpl.
    apply Permutation_map_inv in Hperm as (l & -> & Hl').
    assert (Hnd : NoDup l.*1).
    { rewrite <- Hl'. apply NoDup_fst_map_to_list. }
    rewrite decode_users_json; [|done|].
    - rewrite (right_id_L ∅ (∪)).
      rewrite <- (list_to_map_proper _ _ (NoDup_fst_map_to_list d) Hl').
      by rewrite list_to_map_to_list.
    - rewrite <- Hl'. apply Forall_forall. intros [uid x] Hin. simpl.
      apply elem_of_map_to_list in Hin. eauto. }
  split; [done|].
  unfold DictPersistence_init. apply String.eqb_neq in Hj. rewrite Hj, Hdec. simpl.
  eexists. split; [reflexivity|].
  unfold get_user_data, user_data_json. simpl. by rewrite Hj.
Qed.

End Decoding.

Lemma DictPersistence_init_rejects_witness :
  init_only (json := StdJson.json) UserData "[]" = Raise TypeError
  /\ init_only (json := StdJson.json) CallbackData "{" = Raise TypeError.
Proof.
  split.
  - apply (DictPersistence_init_rejects (json := StdJson.json) UserData "[]");
      [discriminate|].
    right. split; [discriminate|]. exists (PList []). split; reflexivity.
  - apply (DictPersistence_init_rejects (json := StdJson.json) CallbackData "{");
      [discriminate|].
    left. vm_compute. reflexivity.
Defined.

Lemma decode_user_chat_data_keys_witness :
  let data := "{" ++ StdJson.quoted "7" ++ ": {" ++ StdJson.quoted "2" ++ ": 3, "
              ++ StdJson.quoted "name" ++ ": 4}}" in
  let d : IdDict := {[ 7 := PDict [(PInt 2, PInt 3); (PStr "name", PInt 4)] ]} in
  _decode_user_chat_data_from_json (json := StdJson.json) data = Ok d
  /\ forall uid v, d !! uid = Some v ->
       exists inner, v = PDict inner /\ Forall (fun kv => decoded_key kv.1 = true) inner.
Proof.
  intros data d.
  assert (H : _decode_user_chat_data_from_json (json := StdJson.json) data = Ok d)
    by (vm_compute; reflexivity).
  split; [exact H|].
  destruct (decode_user_chat_data_keys (json := StdJson.json) data d H)
    as (its & _ & _ & Hkeys).
  exact Hkeys.
Defined.

(** Two users, written in the order of their insertion, which is not the
    order of the finite map. *)
Lemma user_chat_data_round_trip_witness :
  let d : IdDict := {[ 1 := PDict [(PStr "name", PInt 4)];
                       2 := PDict [(PInt 3, PStr "x")] ]} in
  let j := "{" ++ StdJson.quoted "1" ++ ": {" ++ StdJson.quoted "name" ++ ": 4}, "
           ++ StdJson.quoted "2" ++ ": {" ++ StdJson.quoted "3" ++ ": "
           ++ StdJson.quoted "x" ++ "}}" in
  loads (JsonModule := StdJson.json) j
  = Ok (PDict [(PStr "1", PDict [(PStr "name", PInt 4)]);
               (PStr "2", PDict [(PStr "3", PStr "x")])])
  /\ _decode_user_chat_data_from_json (json := StdJson.json) j = Ok d.
Proof.
  intros d j.
  assert (Hl : loads (JsonModule := StdJson.json) j
               = Ok (PDict [(PStr "1", PDict [(PStr "name", PInt 4)]);
                            (PStr "2", PDict [(PStr "3", PStr "x")])]))
    by (vm_compute; reflexivity).
  split; [exact Hl|].
  apply (user_chat_data_round_trip (json := StdJson.json) d j
           (PDict [(PStr "1", PDict [(PStr "name", PInt 4)]);
                   (PStr "2", PDict [(PStr "3", PStr "x")])])).
  - intros uid x Hx. unfold d in Hx.
    apply lookup_insert_Some in Hx as [[<- <-]|[_ Hx]]; [reflexivity|].
    apply lookup_singleton_Some in Hx as [<- <-]. reflexivity.
  - exact Hl.
  - eexists. split; [reflexivity|]. vm_compute.
    first [reflexivity | apply perm_swap].
  - discriminate.
Defined.

(** ** Accessors *)

Lemma access_cache a s c : cache_of c (access a s) = cache_of c s.
Proof.
  destruct a as [| | | |n]; simpl.
  - unfold get_user_data. destruct (_user_data s); destruct c; done.
  - unfold get_chat_data. destruct (_chat_data s); destruct c; done.
  - unfold get_bot_data. destruct (_bot_data s); destruct c; done.
  - unfold get_callback_data. destruct (_callback_data s) as [[x y]|];
      [destruct (copy y)|]; destruct c; done.
  - unfold get_conversations. destruct (_conversations s); destruct c; done.
Qed.

Lemma access_absent a s :
  ~ absent (accessed a) s -> access a s = s.
Proof.
  destruct a as [| | | |n]; simpl; intros H.
  - unfold get_user_data. by destruct (_user_data s).
  - unfold get_chat_data. by destruct (_chat_data s).
  - unfold get_bot_data. by destruct (_bot_data s).
  - unfold get_callback_data. destruct (_callback_data s) as [[x y]|]; [|done].
    by destruct (copy y).
  - unfold get_conversations. by destruct (_conversations s).
Qed.

(** X13.  An accessor ([get_user_data], [get_chat_data], [get_bot_data],
    [get_callback_data], [get_conversations]) changes no cache and no
    collection but its own; on a collection that exists it leaves the store as
    it is, and a second call leaves the store as the first call left it. *)
Theorem access_frame (a : Accessor) (s : DictPersistence) :
  (forall c, cache_of c (access a s) = cache_of c s)
  /\ (forall c, c <> accessed a -> same_collection c s (access a s))
  /\ (~ absent (accessed a) s -> access a s = s)
  /\ access a (access a s) = access a s.
Proof.
  split; [intros c; apply access_cache|].
  split; [|split; [apply access_absent|]].
  - intros c Hc. destruct a as [| | | |n]; simpl.
    + unfold get_user_data. destruct (_user_data s); destruct c; done.
    + unfold get_chat_data. destruct (_chat_data s); destruct c; done.
    + unfold get_bot_data. destruct (_bot_data s); destruct c; done.
    + unfold get_callback_data. destruct (_callback_data s) as [[x y]|];
        [destruct (copy y)|]; destruct c; done.
    + unfold get_conversations. destruct (_conversations s); destruct c; done.
  - destruct a as [| | | |n]; simpl.
    + unfold get_user_data. destruct (_user_data s) eqn:E; simpl; by rewrite ?E.
    + unfold get_chat_data. destruct (_chat_data s) eqn:E; simpl; by rewrite ?E.
    + unfold get_bot_data. destruct (_bot_data s) eqn:E; simpl; by rewrite ?E.
    + unfold get_callback_data. destruct (_callback_data s) as [[x y]|] eqn:E; simpl.
      * destruct (copy y) eqn:E'; simpl; by rewrite E, E'.
      * done.
    + unfold get_conversations. destruct (_conversations s) eqn:E; simpl; by rewrite ?E.
Qed.

Lemma access_frame_witness :
  let s := snd (update_bot_data (PDict [(PStr "k", PInt 1)]) DictPersistence_new) in
  access GetBotData s = s.
Proof.
  intros s. apply (proj1 (proj2 (proj2 (access_frame GetBotData s)))).
  simpl. discriminate.
Defined.

Section ReachableCollections.
Context {json : JsonModule}.

Lemma init_backed a b c d e s :
  DictPersistence_init a b c d e = Ok s ->
  (_bot_data s = PNone -> _bot_data_json s = None)
  /\ (_conversations s = None -> _conversations_json s = None).
Proof.
  unfold DictPersistence_init.
  destruct (String.eqb_spec a "") as [->|Ha];
    [|destruct (except_as_TypeError (_decode_user_chat_data_from_json a)); [|done]];
  (destruct (String.eqb_spec b "") as [->|Hb];
    [|destruct (except_as_TypeError (_decode_user_chat_data_from_json b)); [|done]]);
  (destruct (String.eqb_spec c "") as [->|Hc];
    [|destruct (except_as_TypeError (loads c)) as [[]|]; try done]);
  (destruct (String.eqb_spec e "") as [->|He];
    [|destruct (except_as_TypeError (loads e)) as [data|]; [|done];
      simpl; destruct (decode_callback_data data); [|done]]);
  (destruct (String.eqb_spec d "") as [->|Hd];
    [|simpl; destruct (except_as_TypeError (_decode_conversations_from_json d)); [|done]]);
  simpl; intros [= <-]; simpl; split; congruence.
Qed.

Lemma reachable_backed s :
  reachable s ->
  (_bot_data s = PNone -> _bot_data_json s = None)
  /\ (_conversations s = None -> _conversations_json s = None).
Proof.
  induction 1 as [a b c d e s Hs|m s _ IH|s _ IH|s _ IH|s _ IH|s _ IH|n s _ IH|c s _ IH].
  - by apply (init_backed a b c d e).
  - destruct IH as [B1 B2].
    destruct m as [uid d|cid d|d|d|n k st]; simpl.
    + rewrite update_user_data_unfold. destruct (py_eqb _ _); simpl; done.
    + rewrite update_chat_data_unfold. destruct (py_eqb _ _); simpl; done.
    + rewrite update_bot_data_unfold. destruct (py_eqb _ _); simpl; done.
    + rewrite update_callback_data_unfold. destruct (py_eqb _ _); simpl; [done|].
      destruct (copy (snd d)); simpl; done.
    + rewrite update_conversation_unfold. destruct (py_eqb _ _); simpl; done.
  - unfold get_user_data. destruct (_user_data s); done.
  - unfold get_chat_data. destruct (_chat_data s); done.
  - unfold get_bot_data. destruct (_bot_data s) eqn:E; simpl; rewrite ?E; try done.
    destruct IH as [B1 B2]. split; [done|exact B2].
  - unfold get_callback_data. destruct (_callback_data s) as [[x y]|]; [|done].
    destruct (copy y); done.
  - unfold get_conversations. destruct (_conversations s) eqn:E; simpl; rewrite ?E;
      [done|]. destruct IH as [B1 B2]. split; [exact B1|done].
  - by rewrite json_property_store.
Qed.

Lemma reachable_absent_cache s c :
  reachable s -> c <> CallbackData -> absent c s -> cache_of c s = None.
Proof.
  intros Hr Hc Ha.
  destruct (reachable_caches s Hr) as [_ [B1 B2]].
  destruct (reachable_backed s Hr) as [B3 B4].
  destruct c; simpl in *; auto. done.
Qed.

(** X14.  On a store that the constructor and the methods produce, a
    collection of user data, chat data, bot data or conversations that was
    never created has no cache: its property serializes [None], and
    [conversations_json] raises [AttributeError]. *)
Theorem reachable_absent_collection (s : DictPersistence) (c : Collection) :
  reachable s -> c <> CallbackData -> absent c s ->
  cache_of c s = None
  /\ json_property c s
     = (match c with
        | ConversationsData => Raise AttributeError
        | _ => dumps PNone
        end, s).
Proof.
  intros Hr Hc Ha. pose proof (reachable_absent_cache s c Hr Hc Ha) as Hcache.
  split; [done|]. rewrite (json_property_miss c s Hcache).
  destruct c; simpl in *; try done; by rewrite Ha.
Qed.

(** X15.  Reading creates: on such a store an accessor other than
    [get_callback_data], called for a collection that was never created,
    creates the empty collection, and the property of the collection, which
    returned the text of [None] or raised before, now serializes the empty
    dictionary. *)
Theorem accessor_creates_collection (s : DictPersistence) (a : Accessor) :
  reachable s -> a <> GetCallbackData -> absent (accessed a) s ->
  ~ absent (accessed a) (access a s)
  /\ json_property (accessed a) (access a s) = (dumps (PDict []), access a s).
Proof.
  intros Hr Hc Ha.
  assert (Hcache : cache_of (accessed a) (access a s) = None).
  { rewrite access_cache. apply reachable_absent_cache; [done| |done].
    by destruct a. }
  rewrite (json_property_miss _ _ Hcache). clear Hcache.
  destruct a as [| | | |n]; simpl in *; try done.
  - unfold get_user_data. rewrite Ha. simpl. split; [done|].
    by rewrite map_to_list_empty.
  - unfold get_chat_data. rewrite Ha. simpl. split; [done|].
    by rewrite map_to_list_empty.
  - unfold get_bot_data. rewrite Ha. simpl. done.
  - unfold get_conversations. rewrite Ha. simpl. split; [done|].
    by rewrite map_to_list_empty.
Qed.

End ReachableCollections.

Lemma reachable_absent_collection_witness :
  let s := snd (update_bot_data (PDict []) DictPersistence_new) in
  json_property (json := StdJson.json) ConversationsData s = (Raise AttributeError, s)
  /\ json_property (json := StdJson.json) UserData s = (Ok "null", s).
Proof.
  intros s.
  assert (Hr : reachable (json := StdJson.json) s).
  { apply (reach_run (UpdateBotData (PDict []))).
    apply (reach_init "" "" "" "" ""). reflexivity. }
  split.
  - apply (reachable_absent_collection (json := StdJson.json) s ConversationsData Hr);
      [discriminate|reflexivity].
  - apply (reachable_absent_collection (json := StdJson.json) s UserData Hr);
      [discriminate|reflexivity].
Defined.

Lemma accessor_creates_collection_witness :
  fst (json_property (json := StdJson.json) ConversationsData DictPersistence_new)
  = Raise AttributeError
  /\ fst (json_property (json := StdJson.json) ConversationsData
            (access (GetConversations "h") DictPersistence_new))
     = Ok "{}".
Proof.
  split; [reflexivity|].
  assert (Hr : reachable (json := StdJson.json) DictPersistence_new).
  { apply (reach_init "" "" "" "" ""). reflexivity. }
  destruct (accessor_creates_collection (json := StdJson.json)
              DictPersistence_new (GetConversations "h") Hr
              ltac:(discriminate) eq_refl) as [_ H].
  cbn [accessed] in H. rewrite H. reflexivity.
Defined.

(** ** An accessor after a mutator *)

Lemma get_conversations_states name s :
  fst (get_conversations name s) = Ok (states_of name s).
Proof.
  unfold get_conversations, states_of. destruct (_conversations s); simpl; [done|].
  by rewrite lookup_empty.
Qed.

Lemma compared_conversation name key st s :
  compared_value (UpdateConversation name key st) s
  = default PNone (states_of name s !! key).
Proof.
  unfold compared_value, states_of. simpl.
  destruct (_conversations s) as [convs|]; simpl; [|by rewrite lookup_empty].
  destruct (convs !! name) as [states|]; simpl; [done|by rewrite lookup_empty].
Qed.

Lemma with_handler_states_of name name' convs :
  default ∅ (with_handler name convs !! name') = default ∅ (default ∅ convs !! name').
Proof.
  unfold with_handler. destruct (default ∅ convs !! name) eqn:E; [done|].
  destruct (decide (name' = name)) as [->|Hne].
  - by rewrite (lookup_insert_eq (default ∅ convs) name), E.
  - by rewrite (lookup_insert_ne (default ∅ convs) name name') by done.
Qed.

(** X16.  After [update_conversation name key new_state], [get_conversations]
    returns for every other handler the states of before, and for [name] the
    former states with [new_state] under [key], or the former states untouched
    when the value found under [key] ([None] for a missing key) was equal to
    [new_state]. *)
Theorem update_conversation_then_get
    (name : string) (key : list Z) (new_state : pyval) (name' : string)
    (s : DictPersistence) :
  fst (get_conversations name' (snd (update_conversation name key new_state s)))
  = Ok (if decide (name' = name)
        then if py_eqb (default PNone (states_of name s !! key)) new_state
             then states_of name s
             else <[key := new_state]> (states_of name s)
        else states_of name' s).
Proof.
  rewrite get_conversations_states. f_equal.
  rewrite update_conversation_unfold, compared_conversation.
  destruct (py_eqb _ _); unfold states_of at 1; simpl.
  - rewrite with_handler_states_of. by destruct (decide _) as [->|].
  - destruct (decide (name' = name)) as [->|Hne].
    + by rewrite (lookup_insert_eq (with_handler name (_conversations s)) name).
    + rewrite (lookup_insert_ne (with_handler name (_conversations s)) name name') by done.
      by rewrite with_handler_states_of.
Qed.

(** X17.  After [update_user_data id data], [get_user_data] returns the former
    dictionary with [data] under [id], or the former dictionary untouched when
    the value found under [id] ([None] when [id] is missing) was equal to
    [data]; the same holds for [update_chat_data] and [get_chat_data]. *)
Theorem update_id_data_then_get (id : Z) (data : pyval) (s : DictPersistence) :
  (let d := default ∅ (_user_data s) in
   fst (get_user_data (snd (update_user_data id data s)))
   = Ok (if py_eqb (default PNone (d !! id)) data then d else <[id := data]> d))
  /\ (let d := default ∅ (_chat_data s) in
      fst (get_chat_data (snd (update_chat_data id data s)))
      = Ok (if py_eqb (default PNone (d !! id)) data then d else <[id := data]> d)).
Proof.
  split; intros d; subst d.
  - rewrite update_user_data_unfold. unfold compared_value, get_user_data. simpl.
    destruct (_user_data s) as [d|] eqn:E; simpl.
    + destruct (py_eqb _ _); simpl; done.
    + rewrite lookup_empty. simpl. destruct data; done.
  - rewrite update_chat_data_unfold. unfold compared_value, get_chat_data. simpl.
    destruct (_chat_data s) as [d|] eqn:E; simpl.
    + destruct (py_eqb _ _); simpl; done.
    + rewrite lookup_empty. simpl. destruct data; done.
Qed.

(** X18.  When [update_callback_data] stores data that differ from the stored
    ones, [get_callback_data] returns the data that were given and leaves the
    store as it is, and the cache of the callback data is empty. *)
Theorem update_callback_data_then_get (data : pyval * pyval) (s : DictPersistence) :
  py_eqb (callback_value (_callback_data s)) (PTuple [fst data; snd data]) = false ->
  fst (update_callback_data data s) = Ok tt ->
  let s' := snd (update_callback_data data s) in
  get_callback_data s' = (Ok (Some data), s')
  /\ _callback_data_json s' = None.
Proof.
  intros Hne. unfold update_callback_data. rewrite Hne.
  destruct data as [a b]. simpl.
  destruct (copy b) as [b'|] eqn:Hb; [|done]. intros _. simpl.
  apply copy_same in Hb as Hb'. subst b'.
  unfold get_callback_data. simpl. by rewrite Hb.
Qed.

Lemma update_callback_data_then_get_witness :
  let data := (PList [], PDict [(PStr "k", PStr "v")]) in
  fst (get_callback_data (snd (update_callback_data data DictPersistence_new)))
  = Ok (Some data).
Proof.
  intros data.
  by rewrite (proj1 (update_callback_data_then_get data DictPersistence_new eq_refl eq_refl)).
Defined.

(** ** Mutators *)

(** X19.  The only mutator that can raise is [update_callback_data], and only
    when the data differ from the stored ones and their second component has
    no [copy]: the exception is [AttributeError], and the store is left as it
    was. *)
Theorem run_raises_only_without_copy (m : Mutation) (s : DictPersistence) (e : exn) :
  fst (run m s) = Raise e ->
  e = AttributeError /\ snd (run m s) = s
  /\ exists data, m = UpdateCallbackData data
       /\ copy (snd data) = Raise AttributeError
       /\ py_eqb (callback_value (_callback_data s)) (PTuple [fst data; snd data]) = false.
Proof.
  destruct m as [uid d|cid d|d|d|n k st]; simpl.
  - rewrite update_user_data_unfold. by destruct (py_eqb _ _).
  - rewrite update_chat_data_unfold. by destruct (py_eqb _ _).
  - rewrite update_bot_data_unfold. by destruct (py_eqb _ _).
  - unfold update_callback_data.
    destruct (py_eqb _ _) eqn:E; [done|].
    destruct (copy (snd d)) as [x|e'] eqn:Ec; [done|]. simpl. intros [= ->].
    assert (e = AttributeError) as ->.
    { destruct (snd d); simpl in Ec; congruence. }
    repeat split. by exists d.
  - rewrite update_conversation_unfold. by destruct (py_eqb _ _).
Qed.

Lemma run_raises_only_without_copy_witness :
  fst (update_callback_data (PList [], PInt 1) DictPersistence_new) = Raise AttributeError
  /\ snd (update_callback_data (PList [], PInt 1) DictPersistence_new) = DictPersistence_new.
Proof.
  assert (H : fst (run (UpdateCallbackData (PList [], PInt 1)) DictPersistence_new)
              = Raise AttributeError) by reflexivity.
  split; [exact H|].
  exact (proj1 (proj2 (run_raises_only_without_copy _ _ _ H))).
Defined.

Lemma run_compared m1 m2 s :
  affected m1 <> affected m2 ->
  compared_value m2 (snd (run m1 s)) = compared_value m2 s.
Proof.
  intros Hne. pose proof (run_siblings_unchanged m1 s (affected m2)) as [H _]; [done|].
  unfold compared_value. f_equal.
  destruct m2; simpl in *; by rewrite <- ?H.
Qed.

(** X20.  Two mutators of different collections commute: either order leaves
    the same store, and each call returns or raises as it does alone. *)
Theorem run_commutes (m1 m2 : Mutation) (s : DictPersistence) :
  affected m1 <> affected m2 ->
  fst (run m2 (snd (run m1 s))) = fst (run m2 s)
  /\ fst (run m1 (snd (run m2 s))) = fst (run m1 s)
  /\ snd (run m2 (snd (run m1 s))) = snd (run m1 (snd (run m2 s))).
Proof.
  intros Hne.
  assert (Hne' : affected m2 <> affected m1) by congruence.
  pose proof (run_compared m1 m2 s Hne) as H12.
  pose proof (run_compared m2 m1 s Hne') as H21.
  destruct m1 as [uid d|cid d|d|d|n k st]; destruct m2 as [uid' d'|cid' d'|d'|d'|n' k' st'];
    try done; cbn [run] in *;
    rewrite ?update_user_data_unfold, ?update_chat_data_unfold, ?update_bot_data_unfold,
      ?update_callback_data_unfold, ?update_conversation_unfold in *.
  all: rewrite ?H12, ?H21.
  all: repeat match goal with
       | |- context [py_eqb ?a ?b] => destruct (py_eqb a b)
       | |- context [copy ?a] => destruct (copy a)
       end.
  all: done.
Qed.

Lemma run_commutes_witness :
  let m1 := UpdateUserData 7 (PDict [(PStr "k", PInt 1)]) in
  let m2 := UpdateConversation "h" [1; 2] (PStr "STATE") in
  snd (run m2 (snd (run m1 DictPersistence_new)))
  = snd (run m1 (snd (run m2 DictPersistence_new))).
Proof.
  intros m1 m2.
  apply (proj2 (proj2 (run_commutes m1 m2 DictPersistence_new ltac:(discriminate)))).
Defined.
